(** * bms-table-loader: a shallow embedding of [main.ts] and its properties

    The loader fetches a BMS table (an HTML wrapper page or a JSON header),
    validates the header, fetches the body and keeps the body entries it can
    identify.  The embedding follows the revision of [main.ts] that
    normalizes the body by hand, in [ExtractBMSBody]; the line numbers in the
    headings are those of that file.  Everything the code handles is a value
    decoded by [JSON.parse], so the development starts with a model of those
    values. *)

From Stdlib Require Import ZArith NArith Lia Bool List String Ascii.
From Stdlib Require Import Floats.SpecFloat.
From stdpp Require Import base option list gmap.

Local Open Scope Z_scope.
Local Set Warnings "-register-all".

(** ** JavaScript strings

    A JavaScript string is a sequence of UTF-16 code units; [length], indexing,
    [startsWith] and the regular expression of [ReadMetaTag] all work on code
    units. *)

Abbreviation codeunit := N (only parsing).
Abbreviation jsstring := (list N) (only parsing).

(** The code units of an ASCII literal. *)
Definition js (s : string) : jsstring :=
  map N_of_ascii (list_ascii_of_string s).

Definition codeunit_eqb (a b : codeunit) : bool := N.eqb a b.

Fixpoint jsstring_eqb (a b : jsstring) : bool :=
  match a, b with
  | [], [] => true
  | x :: a', y :: b' => codeunit_eqb x y && jsstring_eqb a' b'
  | _, _ => false
  end.

(** [String.prototype.startsWith]. *)
Fixpoint startsWith (s prefix : jsstring) {struct prefix} : bool :=
  match prefix, s with
  | [], _ => true
  | p :: prefix', c :: s' => codeunit_eqb c p && startsWith s' prefix'
  | _ :: _, [] => false
  end.

(** [String.prototype.includes]: some suffix of [s] starts with [needle]. *)
Fixpoint includes (s needle : jsstring) : bool :=
  startsWith s needle ||
  match s with
  | [] => false
  | _ :: s' => includes s' needle
  end.

(** [String.prototype.replace] with a string pattern: only the first
    occurrence is replaced (the replacement used by the loader is the empty
    string, which has no [$] patterns). *)
Fixpoint replace (s pattern replacement : jsstring) : jsstring :=
  if startsWith s pattern then replacement ++ drop (length pattern) s
  else match s with
       | [] => []
       | c :: s' => c :: replace s' pattern replacement
       end.

(** ECMAScript [LineTerminator]: LF, CR, LS, PS. *)
Definition isLineTerminator (c : codeunit) : bool :=
  (N.eqb c 0x0A || N.eqb c 0x0D || N.eqb c 0x2028 || N.eqb c 0x2029)%N.

(** ECMAScript [WhiteSpace] and [LineTerminator], the class behind the
    regular expression escape [\s] and behind [trimStart]. *)
Definition isWhiteSpace (c : codeunit) : bool :=
  (N.eqb c 0x09 || N.eqb c 0x0B || N.eqb c 0x0C || N.eqb c 0x20 ||
   N.eqb c 0xA0 || N.eqb c 0x1680 ||
   (N.leb 0x2000 c && N.leb c 0x200A) ||
   N.eqb c 0x202F || N.eqb c 0x205F || N.eqb c 0x3000 || N.eqb c 0xFEFF ||
   isLineTerminator c)%N.

(** [String.prototype.trimStart]. *)
Fixpoint trimStart (s : jsstring) : jsstring :=
  match s with
  | c :: s' => if isWhiteSpace c then trimStart s' else s
  | [] => []
  end.

(** ** JavaScript values

    The values [JSON.parse] can return, together with [undefined] (what a
    property read yields for an absent key).  Numbers are IEEE 754 doubles,
    as [spec_float] represents them; objects are finite maps from keys to
    values. *)

Inductive JSValue :=
| JUndefined
| JNull
| JBool (b : bool)
| JNumber (n : spec_float)
| JString (s : jsstring)
| JArray (items : list JSValue)
| JObject (fields : gmap (list N) JSValue).

Abbreviation Obj := (gmap (list N) JSValue) (only parsing).

(** The double nearest to an integer (binary64: 53 bits of mantissa). *)
Definition num (z : Z) : spec_float := binary_normalize 53 1024 z 0 false.

(** Property read [o.key] on an object: [undefined] when the key is absent. *)
Definition field (o : Obj) (key : string) : JSValue :=
  default JUndefined (o !! js key).

(** The results of [typeof] that these values can have. *)
Inductive TypeName := t_undefined | t_object | t_boolean | t_number | t_string.

Definition typeof (v : JSValue) : TypeName :=
  match v with
  | JUndefined => t_undefined
  | JNull => t_object
  | JBool _ => t_boolean
  | JNumber _ => t_number
  | JString _ => t_string
  | JArray _ => t_object
  | JObject _ => t_object
  end.

Definition TypeName_eqb (a b : TypeName) : bool :=
  match a, b with
  | t_undefined, t_undefined | t_object, t_object | t_boolean, t_boolean
  | t_number, t_number | t_string, t_string => true
  | _, _ => false
  end.

Definition Array_isArray (v : JSValue) : bool :=
  match v with JArray _ => true | _ => false end.

Definition isNaN (n : spec_float) : bool :=
  match n with S754_nan => true | _ => false end.

(** [ToBoolean], the test an [if] applies to its condition. *)
Definition ToBoolean (v : JSValue) : bool :=
  match v with
  | JUndefined | JNull => false
  | JBool b => b
  | JNumber (S754_zero _) | JNumber S754_nan => false
  | JNumber _ => true
  | JString [] => false
  | JString (_ :: _) => true
  | JArray _ | JObject _ => true
  end.

(** [SameValueZero], the comparison of [Array.prototype.includes]: numbers by
    value with [NaN] equal to itself and [+0] equal to [-0], strings by
    content, and never across types.  An array or an object is the same
    value as itself only; the arrays and objects decoded from a document are
    all different objects, so they compare unequal here (and no [level] the
    loader keeps is one). *)
Definition SameValueZero (x y : JSValue) : bool :=
  match x, y with
  | JUndefined, JUndefined => true
  | JNull, JNull => true
  | JBool a, JBool b => Bool.eqb a b
  | JNumber S754_nan, JNumber S754_nan => true
  | JNumber a, JNumber b => SFeqb a b
  | JString a, JString b => jsstring_eqb a b
  | _, _ => false
  end.

(** [Array.prototype.includes]. *)
Definition Array_includes (xs : list JSValue) (searchElement : JSValue) : bool :=
  existsb (SameValueZero searchElement) xs.

(** ** Errors

    The loader throws plain [Error]s that differ in their message; one
    constructor per [throw], carrying what the message interpolates.  The
    exceptions of the platform ([fetch] rejecting, [new URL] and [JSON.parse]
    throwing) pass through [LoadBMSTable] unless a [catch] rewraps them. *)

Inductive PathItem := p_key (k : string) | p_index (i : nat).
Inductive IssueCode := invalid_type | invalid_union.
Record ZodIssue := mkIssue { code : IssueCode; path : list PathItem }.

Inductive Error :=
| FetchRejected (url reason : jsstring)
    (* the promise of [fetch] rejected: no response at all *)
| ZeroRetries (url : jsstring)
    (* "Attempted to fetch ${url} with 0 retries. Very funny." *)
| FetchFailed (url : jsstring) (status : Z)
    (* "Failed to fetch ${url}: ${lastRes.status}" *)
| NoBmstableTag (url : jsstring)
    (* "${url} returned HTML, but had no readable bmstable tag. ..." *)
| InvalidURL (input base : jsstring)
    (* the TypeError of [new URL(input, base)] *)
| SyntaxError (message : jsstring)
    (* the SyntaxError of [JSON.parse], uncaught on the JSON path *)
| FailedReadHeader (err : jsstring)
    (* "Failed to read header.json: ${err}." *)
| InvalidHead (issues : list ZodIssue)
    (* "Invalid head.json: ${headerResult.error.toString()}." *)
| FailedReadBody (err : jsstring)
    (* "Failed to read body.json: ${err}." *)
| InvalidBody (type : TypeName) (rawData : JSValue)
    (* "Invalid body.json -- got ${typeof rawData} (${rawData}) instead of
       an array." *)
| CannotConvertToPrimitive (rawData : JSValue)
    (* the TypeError of the template literal above, when [rawData] has no
       string form: "Cannot convert object to primitive value" *).

Inductive Result (A : Type) :=
| Ok (a : A)
| Throw (e : Error).
Arguments Ok {A} a.
Arguments Throw {A} e.

(** ** The table and its level order (lines 68-104) *)

Record BMSTable := mkBMSTable { head : Obj; body : list Obj }.

(** The loop of [getLevelOrder]: one step per chart, [levels] the array
    being filled. *)
Definition sniffLevel (levels : list JSValue) (chart : Obj) : list JSValue :=
  if negb (Array_includes levels (field chart "level"))
  then levels ++ [field chart "level"]
  else levels.

Definition getLevelOrder (t : BMSTable) : JSValue :=
  if ToBoolean (field (head t) "levels") then field (head t) "levels"
  else if ToBoolean (field (head t) "level_order")
       then field (head t) "level_order"
       else JArray (fold_left sniffLevel (body t) []).

(** ** The header schema (lines 106-112)

    The part of zod the schema uses.  A schema maps a value, at a path, to
    the issues it finds; [safeParse] succeeds when there are none.  [z.object]
    reads the keys of its shape and ignores every other key; [z.number]
    refuses [NaN]; [z.optional] accepts [undefined], and [null] only if the
    inner schema does. *)

Definition ZodType := list PathItem -> JSValue -> list ZodIssue.

Definition z_string : ZodType := fun path v =>
  match v with
  | JString _ => []
  | _ => [mkIssue invalid_type path]
  end.

Definition z_number : ZodType := fun path v =>
  match v with
  | JNumber n => if isNaN n then [mkIssue invalid_type path] else []
  | _ => [mkIssue invalid_type path]
  end.

Definition z_union (options : list ZodType) : ZodType := fun path v =>
  if existsb (fun option => match option path v with [] => true | _ => false end)
       options
  then []
  else [mkIssue invalid_union path].

Definition z_array (element : ZodType) : ZodType := fun path v =>
  match v with
  | JArray items =>
      concat (imap (fun i item => element (path ++ [p_index i]) item) items)
  | _ => [mkIssue invalid_type path]
  end.

Definition z_optional (inner : ZodType) : ZodType := fun path v =>
  match v with
  | JUndefined => []
  | _ => inner path v
  end.

Definition z_object (shape : list (string * ZodType)) : ZodType := fun path v =>
  match v with
  | JObject o =>
      concat (map (fun kt => snd kt (path ++ [p_key (fst kt)]) (field o (fst kt)))
                  shape)
  | _ => [mkIssue invalid_type path]
  end.

Definition safeParse (schema : ZodType) (data : JSValue) : list ZodIssue :=
  schema [] data.

Definition HEAD_SCHEMA : ZodType :=
  z_object
    [ ("name", z_string);
      ("symbol", z_string);
      ("data_url", z_string);
      ("levels", z_optional (z_array (z_union [z_number; z_string])));
      ("level_order", z_optional (z_array (z_union [z_number; z_string]))) ]%string.

(** ** The body normalizer (lines 173-247) *)

Definition LEN_MD5_HEX_HASH : nat :=
  length (js "d0f497c0f955e7edfb0278f446cdb6f8").
Definition LEN_SHA256_HEX_HASH : nat :=
  length (js "769359ebb55d3d6dff3b5c6a07ec03be9b87beda1ffb0c07d7ea99590605a732").

(** [typeof v !== "string" || v.length !== len]. *)
Definition notStringOfLength (v : JSValue) (len : nat) : bool :=
  negb (TypeName_eqb (typeof v) t_string) ||
  match v with
  | JString s => negb (Nat.eqb (length s) len)
  | _ => true
  end.

(** The arm of the [if] at line 225 that lets an entry through: "we have a
    valid md5" or "we have a valid sha256". *)
Inductive ChecksumType := md5 | sha256.

(** One turn of the loop of [ExtractBMSBody]: [None] for [continue],
    otherwise the record that is pushed and the arm that accepted it. *)
Definition ExtractBMSBody_entry (entry : JSValue) : option (ChecksumType * Obj) :=
  match entry with
  | JNull => None                       (* entry === null *)
  | JArray _ => None                    (* Array.isArray(entry) *)
  | JObject rec =>
      if negb (TypeName_eqb (typeof (field rec "level")) t_number) &&
         negb (TypeName_eqb (typeof (field rec "level")) t_string)
      then None
      else if notStringOfLength (field rec "md5") LEN_MD5_HEX_HASH
           then if notStringOfLength (field rec "sha256") LEN_SHA256_HEX_HASH
                then None
                else Some (sha256, rec)
           else Some (md5, rec)
  | _ => None                           (* typeof entry !== "object" *)
  end.

Definition ExtractBMSBody_push (bmsTableEntries : list Obj) (entry : JSValue)
  : list Obj :=
  match ExtractBMSBody_entry entry with
  | Some (_, rec) => bmsTableEntries ++ [rec]
  | None => bmsTableEntries
  end.

(** Whether [ToString], which a template literal applies to the value it
    interpolates, throws.  An object is converted through its [toString] and
    then its [valueOf]: a decoded object with a [toString] field of its own
    hides [Object.prototype.toString] behind a value that is no function, and
    [valueOf] (its own, no function either, or [Object.prototype.valueOf],
    which returns the object) gives no primitive, so the conversion throws a
    TypeError; without such a field the inherited [toString] answers.  An
    array is joined, which converts its elements (null apart).  Nothing else
    throws. *)
Fixpoint ToString_throws (v : JSValue) : bool :=
  match v with
  | JObject o =>
      match o !! js "toString" with
      | Some _ => true
      | None => false
      end
  | JArray items => existsb ToString_throws items
  | _ => false
  end.

(** The message of the error for a body that is not an array interpolates
    [rawData]; when that conversion throws, its TypeError is what leaves the
    function. *)
Definition ExtractBMSBody (rawData : JSValue) : Result (list Obj) :=
  match rawData with
  | JArray items => Ok (fold_left ExtractBMSBody_push items [])
  | _ =>
      Throw (if ToString_throws rawData
             then CannotConvertToPrimitive rawData
             else InvalidBody (typeof rawData) rawData)
  end.

(** ** The regular expression of [ReadMetaTag] (line 287)

    A backtracking matcher for the constructs the expression uses: literal
    characters, a greedy [+] and a lazy [*?] over a character class, and a
    capture group around a lazy [*?].  Every matcher takes the continuation
    that matches the rest of the expression, as in the ECMAScript semantics;
    it returns the text captured by group 1. *)

Inductive RegexNode :=
| r_chars (s : jsstring)
| r_plus (cls : codeunit -> bool)
| r_lazy_star (cls : codeunit -> bool)
| r_group_lazy_star (cls : codeunit -> bool).

Definition Captures := option jsstring.

Definition match_chars (s : jsstring) (k : jsstring -> option Captures)
    (input : jsstring) : option Captures :=
  if startsWith input s then k (drop (length s) input) else None.

(** Greedy: take a character of the class if there is one, and come back to
    the continuation only when the longer attempts have failed. *)
Fixpoint match_greedy_star (cls : codeunit -> bool)
    (k : jsstring -> option Captures) (input : jsstring) : option Captures :=
  match input with
  | c :: rest =>
      if cls c
      then match match_greedy_star cls k rest with
           | Some m => Some m
           | None => k input
           end
      else k input
  | [] => k input
  end.

Definition match_plus (cls : codeunit -> bool)
    (k : jsstring -> option Captures) (input : jsstring) : option Captures :=
  match input with
  | c :: rest => if cls c then match_greedy_star cls k rest else None
  | [] => None
  end.

(** Lazy: try the continuation first, and take one more character of the
    class only when it fails. *)
Fixpoint match_lazy_star (cls : codeunit -> bool)
    (k : jsstring -> option Captures) (input : jsstring) : option Captures :=
  match k input with
  | Some m => Some m
  | None =>
      match input with
      | c :: rest => if cls c then match_lazy_star cls k rest else None
      | [] => None
      end
  end.

Fixpoint match_group_lazy_star (cls : codeunit -> bool)
    (k : jsstring -> jsstring -> option Captures)
    (captured input : jsstring) : option Captures :=
  match k captured input with
  | Some m => Some m
  | None =>
      match input with
      | c :: rest =>
          if cls c then match_group_lazy_star cls k (captured ++ [c]) rest
          else None
      | [] => None
      end
  end.

Fixpoint match_nodes (nodes : list RegexNode) (group1 : Captures)
    (input : jsstring) {struct nodes} : option Captures :=
  match nodes with
  | [] => Some group1
  | r_chars s :: nodes' =>
      match_chars s (match_nodes nodes' group1) input
  | r_plus cls :: nodes' =>
      match_plus cls (match_nodes nodes' group1) input
  | r_lazy_star cls :: nodes' =>
      match_lazy_star cls (match_nodes nodes' group1) input
  | r_group_lazy_star cls :: nodes' =>
      match_group_lazy_star cls
        (fun captured => match_nodes nodes' (Some captured)) [] input
  end.

(** [RegExp.prototype.exec] on a fresh expression ([lastIndex] is 0): the
    match at the leftmost index where there is one. *)
Fixpoint exec (nodes : list RegexNode) (input : jsstring) : option Captures :=
  match match_nodes nodes None input with
  | Some m => Some m
  | None =>
      match input with
      | _ :: rest => exec nodes rest
      | [] => None
      end
  end.

Definition dquote : jsstring := [0x22%N].

(** [.] without the [s] flag: any character but a line terminator. *)
Definition dot (c : codeunit) : bool := negb (isLineTerminator c).

(** [/<meta[\s]+name="bmstable".*?="(.*?)"/gmu].  The flags change nothing
    here: [g] only moves [lastIndex], which starts at 0; [m] concerns [^] and
    [$]; under [u] the expression runs over code points, and no literal of
    the expression, white space or line terminator is half of a surrogate
    pair. *)
Definition bmstable_regex : list RegexNode :=
  [ r_chars (js "<meta");
    r_plus isWhiteSpace;
    r_chars (js "name=" ++ dquote ++ js "bmstable" ++ dquote);
    r_lazy_star dot;
    r_chars (js "=" ++ dquote);
    r_group_lazy_star dot;
    r_chars dquote ].

(** [ReadMetaTag] (lines 286-294): [match[1]], or [null]. *)
Definition ReadMetaTag (html : jsstring) : option jsstring :=
  match exec bmstable_regex html with
  | None => None
  | Some group1 => group1
  end.

(** ** The platform, and the loader (lines 120-171, 249-351)

    [fetch], [JSON.parse] and [new URL] belong to the platform.  The network
    answers a request according to the requests made before it; a run of the
    loader threads the log of its requests. *)

Record Response := mkResponse {
  status : Z;
  contentType : option jsstring;   (* res.headers.get("Content-Type") *)
  text : jsstring                  (* await res.text() *)
}.

Inductive FetchOutcome :=
| Responds (res : Response)
| Rejects (reason : jsstring).

Record Platform := mkPlatform {
  network : list jsstring -> jsstring -> FetchOutcome;
  JSON_parse : jsstring -> jsstring + JSValue;       (* inl: a SyntaxError *)
  URL_href : jsstring -> jsstring -> option jsstring (* None: a TypeError *)
}.

Definition IO (A : Type) : Type := list jsstring -> Result A * list jsstring.

Definition ret {A} (a : A) : IO A := fun log => (Ok a, log).
Definition throw {A} (e : Error) : IO A := fun log => (Throw e, log).
Definition bind {A B} (m : IO A) (k : A -> IO B) : IO B := fun log =>
  match m log with
  | (Ok a, log') => k a log'
  | (Throw e, log') => (Throw e, log')
  end.

Notation "'let!' x ':=' m 'in' k" := (bind m (fun x => k))
  (at level 10, x pattern, m at level 100, k at level 200).

Inductive DocumentType := doc_html | doc_json.

Definition BOM : jsstring := [0xFEFF%N].

Section Loader.
Variable P : Platform.

Definition fetch (url : jsstring) : IO Response := fun log =>
  match network P log url with
  | Responds res => (Ok res, log ++ [url])
  | Rejects reason => (Throw (FetchRejected url reason), log ++ [url])
  end.

(** The [while] loop of [FetchWithRetry], by the number of turns it has
    left, [retryCount - tries]. *)
Fixpoint FetchWithRetry_loop (url : jsstring) (remaining : nat)
    (lastRes : option Response) : IO Response :=
  match remaining with
  | S remaining' =>
      let! res := fetch url in
      if status res =? 200 then ret res
      else FetchWithRetry_loop url remaining' (Some res)
  | O =>
      match lastRes with
      | None => throw (ZeroRetries url)
      | Some lastRes => throw (FetchFailed url (status lastRes))
      end
  end.

Definition FetchWithRetry (url : jsstring) (retryCount : Z) : IO Response :=
  FetchWithRetry_loop url (Z.to_nat retryCount) None.

Definition default_retryCount : Z := 3.

Definition IsHTMLOrJSON (res : Response) (resText : jsstring) : DocumentType :=
  match contentType res with
  | None | Some [] =>
      match trimStart resText with
      | firstChar :: _ =>
          if codeunit_eqb firstChar 0x7B%N then doc_json else doc_html
      | [] => doc_html
      end
  | Some contentType =>
      if includes contentType (js "application/json") then doc_json else doc_html
  end.

Definition BrokenBMSJSONParse (str : jsstring) : jsstring + JSValue :=
  let cleanStr := if startsWith str BOM then replace str BOM [] else str in
  JSON_parse P cleanStr.

Definition new_URL (input base : jsstring) : IO jsstring :=
  match URL_href P input base with
  | Some href => ret href
  | None => throw (InvalidURL input base)
  end.

(** Lines 121-149: find and decode the header. *)
Definition LoadBMSTable_header (url : jsstring) : IO (jsstring * JSValue) :=
  let! firstRes := FetchWithRetry url default_retryCount in
  let resText := text firstRes in
  match IsHTMLOrJSON firstRes resText with
  | doc_json =>
      match BrokenBMSJSONParse resText with
      | inl err => throw (SyntaxError err)
      | inr headerJSON => ret (url, headerJSON)
      end
  | doc_html =>
      match ReadMetaTag resText with
      | None | Some [] => throw (NoBmstableTag url)
      | Some bmstable =>
          let! headerLocation := new_URL bmstable url in
          let! headerJSONRes := FetchWithRetry headerLocation default_retryCount in
          match BrokenBMSJSONParse (text headerJSONRes) with
          | inl err => throw (FailedReadHeader err)
          | inr headerJSON => ret (headerLocation, headerJSON)
          end
      end
  end.

(** [headerJSON.data_url], a string once the header has passed the schema. *)
Definition data_url (headerJSON : Obj) : jsstring :=
  match field headerJSON "data_url" with
  | JString s => s
  | _ => []
  end.

(** Lines 151-170: validate the header, then fetch and normalize the body.
    The table is built from [headerJSON] itself, not from the output of the
    schema. *)
Definition LoadBMSTable (url : jsstring) : IO BMSTable :=
  let! located := LoadBMSTable_header url in
  let headerLocation := fst located in
  match snd located, safeParse HEAD_SCHEMA (snd located) with
  | JObject headerJSON, [] =>
      let! bodyLocation := new_URL (data_url headerJSON) headerLocation in
      let! body := FetchWithRetry bodyLocation default_retryCount in
      match BrokenBMSJSONParse (text body) with
      | inl err => throw (FailedReadBody err)
      | inr rawBodyJSON =>
          match ExtractBMSBody rawBodyJSON with
          | Throw e => throw e
          | Ok bodyJSON => ret (mkBMSTable headerJSON bodyJSON)
          end
      end
  | _, issues => throw (InvalidHead issues)
  end.
End Loader.

(** ** Properties the statements below are phrased with

    These definitions say what the documentation says, in its words; the
    theorems compare them with the code above. *)

Definition isString (v : JSValue) : bool :=
  match v with JString _ => true | _ => false end.

Definition isNumberOrString (v : JSValue) : bool :=
  match v with JNumber _ | JString _ => true | _ => false end.

(** A string of exactly [n] characters (UTF-16 code units). *)
Definition isStringOfLength (n : nat) (v : JSValue) : bool :=
  match v with
  | JString s => Nat.eqb (length s) n
  | _ => false
  end.

Definition isHexDigit (c : codeunit) : bool :=
  ((N.leb 0x30 c && N.leb c 0x39) ||
   (N.leb 0x41 c && N.leb c 0x46) ||
   (N.leb 0x61 c && N.leb c 0x66))%N.

(** A string of exactly [n] hexadecimal characters. *)
Definition isHexString (n : nat) (v : JSValue) : bool :=
  match v with
  | JString s => Nat.eqb (length s) n && forallb isHexDigit s
  | _ => false
  end.

(** An element the normalizer can use: a non-array object with a number or
    string [level] and an [md5] of 32 characters or a [sha256] of 64. *)
Definition usable (entry : JSValue) : bool :=
  match entry with
  | JObject rec =>
      isNumberOrString (field rec "level") &&
      (isStringOfLength 32 (field rec "md5") ||
       isStringOfLength 64 (field rec "sha256"))
  | _ => false
  end.

(** The ways an element of the body can be unusable. *)
Definition excluded (entry : JSValue) : Prop :=
  entry = JNull \/
  typeof entry <> t_object \/
  Array_isArray entry = true \/
  exists rec, entry = JObject rec /\
    (isNumberOrString (field rec "level") = false \/
     (isStringOfLength 32 (field rec "md5") = false /\
      isStringOfLength 64 (field rec "sha256") = false)).

(** The wrapped entry of the README: [{ checksum: { type, value }, content }]. *)
Definition ChecksumType_name (t : ChecksumType) : jsstring :=
  match t with md5 => js "md5" | sha256 => js "sha256" end.

Definition README_entry (t : ChecksumType) (value : jsstring) (content : Obj)
  : Obj :=
  <[js "checksum" :=
      JObject (<[js "type" := JString (ChecksumType_name t)]>
               (<[js "value" := JString value]> ∅))]>
  (<[js "content" := JObject content]> ∅).

(** The outcome of the [i]-th of consecutive requests for [url], made after
    the requests of [log]. *)
Definition attempt (P : Platform) (url : jsstring) (log : list jsstring)
    (i : nat) : FetchOutcome :=
  network P (log ++ replicate i url) url.

(** An attempt that is answered, with a status other than 200. *)
Definition answersNot200 (o : FetchOutcome) : Prop :=
  exists res, o = Responds res /\ status res <> 200.

(** The response [lastRes] holds once [n] attempts have all been answered. *)
Definition lastResponse (P : Platform) (url : jsstring) (log : list jsstring)
    (n : nat) (before : option Response) : option Response :=
  match n with
  | O => before
  | S n' =>
      match attempt P url log n' with
      | Responds res => Some res
      | Rejects _ => before
      end
  end.

(** An element zod accepts for [levels]: a string, or a number that is not
    [NaN] (which no JSON document decodes to). *)
Definition isLevel (v : JSValue) : bool :=
  match v with
  | JNumber n => negb (isNaN n)
  | JString _ => true
  | _ => false
  end.

(** Absent, or a sequence whose elements are numbers or strings. *)
Definition isOptionalLevels (v : JSValue) : bool :=
  match v with
  | JUndefined => true
  | JArray items => forallb isLevel items
  | _ => false
  end.

(** The shape [HEAD_SCHEMA] asks for. *)
Definition isHeader (v : JSValue) : bool :=
  match v with
  | JObject o =>
      isString (field o "name") && isString (field o "symbol") &&
      isString (field o "data_url") &&
      isOptionalLevels (field o "levels") &&
      isOptionalLevels (field o "level_order")
  | _ => false
  end.

(** The shape the documentation describes, where the location of the body
    may be spelled [dataLocation] as well as [data_url]. *)
Definition isHeader_either_spelling (v : JSValue) : bool :=
  match v with
  | JObject o =>
      isString (field o "name") && isString (field o "symbol") &&
      (isString (field o "dataLocation") || isString (field o "data_url")) &&
      isOptionalLevels (field o "levels") &&
      isOptionalLevels (field o "level_order")
  | _ => false
  end.

(** A text without its leading byte order mark, if it has one. *)
Definition withoutLeadingBOM (str : jsstring) : jsstring :=
  match str with
  | c :: rest => if N.eqb c 0xFEFF then rest else str
  | [] => []
  end.

(** [chart.level]. *)
Definition levelOf (chart : Obj) : JSValue := field chart "level".

(** The distinct values of a sequence, each at the place where it is first
    seen: keep the first value, and of the rest the distinct values that
    differ from it. *)
Fixpoint distinctFirstSeen (vs : list JSValue) : list JSValue :=
  match vs with
  | [] => []
  | v :: rest =>
      v :: List.filter (fun w => negb (SameValueZero v w))
                       (distinctFirstSeen rest)
  end.

(** No value of the sequence is the same as a later one. *)
Fixpoint pairwiseDistinct (vs : list JSValue) : Prop :=
  match vs with
  | [] => True
  | v :: rest =>
      Forall (fun w => SameValueZero v w = false) rest /\ pairwiseDistinct rest
  end.

(** A number taken up to the sign of zero, everything else as it is: two
    values are the same for [SameValueZero] when these keys agree. *)
Definition levelKey (v : JSValue) : JSValue :=
  match v with
  | JNumber (S754_zero _) => JNumber (S754_zero false)
  | _ => v
  end.

(** Values that [SameValueZero] compares by content. *)
Definition isPrimitive (v : JSValue) : bool :=
  match v with
  | JArray _ | JObject _ => false
  | _ => true
  end.

(** The marker [name="bmstable"], and the equals sign and quote that open a
    value. *)
Definition marker : jsstring := js "name=" ++ dquote ++ js "bmstable" ++ dquote.
Definition openValue : jsstring := js "=" ++ dquote.

Definition notQuote (c : codeunit) : bool := negb (N.eqb c 0x22).

(** [input] begins with a complete pointer tag whose value is [v]: [<meta],
    white space, the marker, then on the same line the first equals sign
    followed by a quote, the value and its closing quote. *)
Definition pointerAt (input v : jsstring) : Prop :=
  exists ws mid rest,
    input = js "<meta" ++ ws ++ marker ++ mid ++ openValue ++ v ++ dquote ++ rest /\
    ws <> [] /\
    forallb isWhiteSpace ws = true /\
    forallb dot mid = true /\
    includes mid openValue = false /\
    forallb dot v = true /\
    forallb notQuote v = true.

(** The pointer of the leftmost complete pointer tag of [html]. *)
Definition leftmostPointer (html v : jsstring) : Prop :=
  exists before input,
    html = before ++ input /\
    pointerAt input v /\
    forall before' input' v',
      html = before' ++ input' ->
      (length before' < length before)%nat ->
      ~ pointerAt input' v'.

(** The reading of the documentation, which knows no lines: the text after
    the first [<meta], white space and marker; in it the text after the first
    equals sign followed by a quote; of that the text before the first
    quote. *)
Fixpoint afterFirst (s needle : jsstring) : option jsstring :=
  if startsWith s needle then Some (drop (length needle) s)
  else match s with
       | [] => None
       | _ :: s' => afterFirst s' needle
       end.

Fixpoint beforeFirst (s needle : jsstring) : option jsstring :=
  if startsWith s needle then Some []
  else match s with
       | [] => None
       | c :: s' => option_map (cons c) (beforeFirst s' needle)
       end.

Definition afterMarkerHere (s : jsstring) : option jsstring :=
  if startsWith s (js "<meta") then
    let r := drop 5 s in
    if Nat.ltb (length (trimStart r)) (length r) && startsWith (trimStart r) marker
    then Some (drop (length marker) (trimStart r))
    else None
  else None.

Fixpoint afterFirstMarker (s : jsstring) : option jsstring :=
  match afterMarkerHere s with
  | Some r => Some r
  | None =>
      match s with
      | [] => None
      | _ :: s' => afterFirstMarker s'
      end
  end.

Definition firstQuotedValueAfterFirstMarker (html : jsstring) : option jsstring :=
  match afterFirstMarker html with
  | None => None
  | Some r =>
      match afterFirst r openValue with
      | None => None
      | Some r' => beforeFirst r' dquote
      end
  end.

(** ** Sample documents

    The entries and documents the examples below run the loader on. *)

Definition VALID_MD5 : jsstring := js "d0f497c0f955e7edfb0278f446cdb6f8".
Definition VALID_SHA256 : jsstring :=
  js "769359ebb55d3d6dff3b5c6a07ec03be9b87beda1ffb0c07d7ea99590605a732".

(** [{ level: "1", md5: "zzzzzzzzzzzzzzzzzzzzzzzzzzzzzzzz" }]: 32 characters,
    none of them a hexadecimal digit. *)
Definition entry_md5_not_hex : gmap (list N) JSValue :=
  <[js "level" := JString (js "1")]>
  (<[js "md5" := JString (js "zzzzzzzzzzzzzzzzzzzzzzzzzzzzzzzz")]> ∅).

(** [{ level: "1", md5: VALID_MD5 }]. *)
Definition entry_md5 : gmap (list N) JSValue :=
  <[js "level" := JString (js "1")]> (<[js "md5" := JString VALID_MD5]> ∅).

(** [{ level: 1, md5: "null", sha256: VALID_SHA256, title: "song" }]. *)
Definition entry_sha256 : gmap (list N) JSValue :=
  <[js "level" := JNumber (num 1)]>
  (<[js "md5" := JString (js "null")]>
  (<[js "sha256" := JString VALID_SHA256]>
  (<[js "title" := JString (js "song")]> ∅))).

(** [{ level: "1", md5: VALID_MD5, sha256: VALID_SHA256 }]. *)
Definition entry_both : gmap (list N) JSValue :=
  <[js "level" := JString (js "1")]>
  (<[js "md5" := JString VALID_MD5]>
  (<[js "sha256" := JString VALID_SHA256]> ∅)).

(** [[{"level":1},"not-an-object",null,{"level":"2","md5":"short"}]]. *)
Definition body_all_excluded : list JSValue :=
  [ JObject (<[js "level" := JNumber (num 1)]> ∅);
    JString (js "not-an-object");
    JNull;
    JObject (<[js "level" := JString (js "2")]>
             (<[js "md5" := JString (js "short")]> ∅)) ].

(** An ASCII literal with ['] standing for the double quote. *)
Definition jq (s : string) : jsstring :=
  map (fun c => if N.eqb c 39 then 34%N else c) (js s).

Definition table_url : jsstring := js "http://t/table.html".
Definition head_url : jsstring := js "http://t/head.json".
Definition body_url : jsstring := js "http://t/body.json".
Definition other_head_url : jsstring := js "http://t/other.json".
Definition multiline_url : jsstring := js "http://t/multiline.html".

Definition wrapper_text : jsstring :=
  jq "<html><head><meta name='bmstable' content='head.json'></head></html>".

(** The marker, and its value on the next line. *)
Definition multiline_text : jsstring :=
  jq "<meta name='bmstable'" ++ [0x0A%N] ++ jq "      content='head.json'>".

(** A first marker without a value on its line, then a complete one. *)
Definition two_markers_text : jsstring :=
  jq "<meta name='bmstable'>" ++ [0x0A%N] ++
  jq "<meta name='bmstable' content='second.json'>".

Definition head_json : jsstring :=
  jq "{'name':'Sample','symbol':'s','data_url':'body.json','author':'someone'}".

(** The header as some servers send it: behind a byte order mark. *)
Definition head_text : jsstring := BOM ++ head_json.

Definition sample_head : gmap (list N) JSValue :=
  <[js "name" := JString (js "Sample")]>
  (<[js "symbol" := JString (js "s")]>
  (<[js "data_url" := JString (js "body.json")]>
  (<[js "author" := JString (js "someone")]> ∅))).

Definition other_head_text : jsstring :=
  jq "{'name':'Sample','symbol':'s','dataLocation':'body.json'}".

(** A header that spells the location of the body [dataLocation]. *)
Definition head_dataLocation : gmap (list N) JSValue :=
  <[js "name" := JString (js "Sample")]>
  (<[js "symbol" := JString (js "s")]>
  (<[js "dataLocation" := JString (js "body.json")]> ∅)).

Definition body_text : jsstring :=
  jq "[{'level':'1','md5':'d0f497c0f955e7edfb0278f446cdb6f8'},null," ++
  jq "{'level':1,'md5':'null','sha256':'769359ebb55d3d6dff3b5c6a07ec03be9b87beda1ffb0c07d7ea99590605a732','title':'song'}," ++
  jq "{'level':'1','md5':'d0f497c0f955e7edfb0278f446cdb6f8'}]".

Definition sample_body : list JSValue :=
  [JObject entry_md5; JNull; JObject entry_sha256; JObject entry_md5].

(** A platform for the examples.  Its [JSON.parse] decodes the documents
    above and refuses every other text; its [URL] resolves a relative
    reference against [http://t/]; its network answers 503 to the very first
    request and then serves the documents. *)
Definition sample_JSON_parse (text : jsstring) : jsstring + JSValue :=
  if jsstring_eqb text head_json then inr (JObject sample_head)
  else if jsstring_eqb text other_head_text then inr (JObject head_dataLocation)
  else if jsstring_eqb text body_text then inr (JArray sample_body)
  else inl (js "SyntaxError: Unexpected token").

Definition sample_URL_href (input base : jsstring) : option jsstring :=
  Some (js "http://t/" ++ input).

Definition sample_network (log : list jsstring) (url : jsstring) : FetchOutcome :=
  match log with
  | [] => Responds (mkResponse 503 None [])
  | _ :: _ =>
      if jsstring_eqb url table_url
      then Responds (mkResponse 200 (Some (js "text/html")) wrapper_text)
      else if jsstring_eqb url multiline_url
      then Responds (mkResponse 200 (Some (js "text/html")) multiline_text)
      else if jsstring_eqb url head_url
      then Responds (mkResponse 200 None head_text)
      else if jsstring_eqb url other_head_url
      then Responds (mkResponse 200 (Some (js "application/json; charset=utf-8"))
                                other_head_text)
      else if jsstring_eqb url body_url
      then Responds (mkResponse 200 (Some (js "application/json")) body_text)
      else Responds (mkResponse 404 None [])
  end.

Definition sample_platform : Platform :=
  mkPlatform sample_network sample_JSON_parse sample_URL_href.

(** A host that answers every request with status 500. *)
Definition failing_platform : Platform :=
  mkPlatform (fun _ _ => Responds (mkResponse 500 None []))
             sample_JSON_parse sample_URL_href.

Definition sample_table : BMSTable :=
  mkBMSTable sample_head [entry_md5; entry_sha256; entry_md5].

(** The sample table with a declared order that names none of its levels. *)
Definition table_with_levels : BMSTable :=
  mkBMSTable (<[js "levels" := JArray [JString (js "x")]]> sample_head)
             [entry_md5; entry_sha256; entry_md5].

(** The objects of the test of the checksum ([md5], [sha256]; the test sets
    [level] to ["1"]), [JUndefined] standing for a field left out. *)
Definition test_entry (md5_field sha256_field : JSValue) : gmap (list N) JSValue :=
  let with_field (key : string) (v : JSValue) (o : gmap (list N) JSValue) :=
    match v with
    | JUndefined => o
    | _ => <[js key := v]> o
    end in
  with_field "md5"%string md5_field
    (with_field "sha256"%string sha256_field
       (<[js "level" := JString (js "1")]> ∅)).

Definition checksum_test_cases : list (JSValue * JSValue * ChecksumType) :=
  [ (JString VALID_MD5, JUndefined, md5);
    (JString VALID_MD5, JNull, md5);
    (JString VALID_MD5, JString [], md5);
    (JString VALID_MD5, JArray [], md5);
    (JString VALID_MD5, JObject ∅, md5);
    (JUndefined, JString VALID_SHA256, sha256);
    (JString [], JString VALID_SHA256, sha256);
    (JNull, JString VALID_SHA256, sha256);
    (JString (js "null"), JString VALID_SHA256, sha256);
    (JArray [], JString VALID_SHA256, sha256);
    (JObject ∅, JString VALID_SHA256, sha256) ].

(** [{ "toString": 1 }]: an object that has no string form. *)
Definition object_with_toString : gmap (list N) JSValue :=
  <[js "toString" := JNumber (num 1)]> ∅.

(** ** Further definitions

    The body schema of the earlier revision of [main.ts] (lines 91-96
    there), which validated the body with zod before [ExtractBMSBody]
    replaced it. *)

Definition BODY_SCHEMA : ZodType :=
  z_array (z_object [ ("md5", z_string); ("level", z_string) ]%string).

(** An element the earlier schema accepts: an object whose [md5] and
    [level] are strings. *)
Definition isOldEntry (v : JSValue) : bool :=
  match v with
  | JObject o => isString (field o "md5") && isString (field o "level")
  | _ => false
  end.

(** A run of the loader that makes between [lo] and [hi] requests and
    leaves the requests made before it in place. *)
Definition requestsBetween {A : Type} (m : IO A) (lo hi : nat) : Prop :=
  forall log, exists requests,
    snd (m log) = log ++ requests /\
    (lo <= length requests)%nat /\ (length requests <= hi)%nat.

(** Any character but [<]. *)
Definition notLessThan (c : codeunit) : bool := negb (N.eqb c 0x3C).

(** A host that serves fixed documents whatever was requested before, and
    answers 404 for every other URL. *)
Fixpoint lookupDocument (docs : list (jsstring * Response)) (url : jsstring)
  : FetchOutcome :=
  match docs with
  | [] => Responds (mkResponse 404 None [])
  | (u, res) :: docs' =>
      if jsstring_eqb url u then Responds res else lookupDocument docs' url
  end.

Definition serving (docs : list (jsstring * Response))
    (href : jsstring -> jsstring -> option jsstring) : Platform :=
  mkPlatform (fun _ url => lookupDocument docs url) sample_JSON_parse href.

(** A machine without a network: every request is rejected. *)
Definition offline_platform : Platform :=
  mkPlatform (fun _ _ => Rejects (js "ECONNREFUSED"))
             sample_JSON_parse sample_URL_href.

Definition json_response (text : jsstring) : Response :=
  mkResponse 200 (Some (js "application/json")) text.

Definition html_response (text : jsstring) : Response :=
  mkResponse 200 (Some (js "text/html")) text.

(** A run of the loader that throws only errors with the property [ok]. *)
Definition throwsOnly {A : Type} (m : IO A) (ok : Error -> Prop) : Prop :=
  forall log e log', m log = (Throw e, log') -> ok e.

(** What the errors of a load of [url] always satisfy. *)
Definition errorOfLoad (url : jsstring) (e : Error) : Prop :=
  match e with
  | ZeroRetries _ => False
  | FetchFailed _ status => status <> 200
  | NoBmstableTag u => u = url
  | InvalidHead issues => issues <> []
  | InvalidBody type rawData =>
      Array_isArray rawData = false /\ type = typeof rawData
  | _ => True
  end.

Definition documents_bad_header : list (jsstring * Response) :=
  [ (table_url, html_response wrapper_text);
    (head_url, json_response (js "{name:"));
    (other_head_url, json_response (js "{name:")) ].

Definition documents_bad_body : list (jsstring * Response) :=
  [ (table_url, html_response wrapper_text);
    (head_url, json_response head_text);
    (body_url, json_response (js "[")) ].

(** A [URL] that resolves nothing. *)
Definition no_URL (input base : jsstring) : option jsstring := None.

(** A [URL] that resolves the pointer of the wrapper page and nothing else. *)
Definition pointer_URL_only (input base : jsstring) : option jsstring :=
  if jsstring_eqb input (js "head.json") then Some head_url else None.

(** A page whose tag is written in capitals. *)
Definition capitals_text : jsstring :=
  jq "<META NAME='bmstable' CONTENT='head.json'>".

(** A body that is an object, not an array. *)
Definition documents_object_body : list (jsstring * Response) :=
  [ (table_url, html_response wrapper_text);
    (head_url, json_response head_text);
    (body_url, json_response other_head_text) ].

(** * Theorems *)

(** ** The body normalizer *)

Lemma notStringOfLength_spec v n :
  notStringOfLength v n = negb (isStringOfLength n v).
Proof. destruct v; reflexivity. Qed.

Lemma LEN_MD5_HEX_HASH_32 : LEN_MD5_HEX_HASH = 32%nat.
Proof. reflexivity. Qed.

Lemma LEN_SHA256_HEX_HASH_64 : LEN_SHA256_HEX_HASH = 64%nat.
Proof. reflexivity. Qed.

Lemma level_test_spec (rec : gmap (list N) JSValue) :
  negb (TypeName_eqb (typeof (field rec "level")) t_number) &&
  negb (TypeName_eqb (typeof (field rec "level")) t_string)
  = negb (isNumberOrString (field rec "level")).
Proof. destruct (field rec "level"); reflexivity. Qed.

(** The loop body, arm by arm. *)
Lemma ExtractBMSBody_entry_object (rec : gmap (list N) JSValue) :
  ExtractBMSBody_entry (JObject rec) =
    if isNumberOrString (field rec "level") then
      if isStringOfLength 32 (field rec "md5") then Some (md5, rec)
      else if isStringOfLength 64 (field rec "sha256") then Some (sha256, rec)
           else None
    else None.
Proof.
  unfold ExtractBMSBody_entry.
  rewrite level_test_spec, !notStringOfLength_spec.
  rewrite LEN_MD5_HEX_HASH_32, LEN_SHA256_HEX_HASH_64.
  destruct (isNumberOrString _); simpl; [|reflexivity].
  destruct (isStringOfLength 32 _); simpl; [reflexivity|].
  destruct (isStringOfLength 64 _); reflexivity.
Qed.

Lemma ExtractBMSBody_entry_Some entry t rec :
  ExtractBMSBody_entry entry = Some (t, rec) -> entry = JObject rec.
Proof.
  destruct entry; try discriminate.
  rewrite ExtractBMSBody_entry_object.
  repeat case_match; congruence.
Qed.

Lemma ExtractBMSBody_entry_usable entry :
  usable entry = true <-> exists t rec, ExtractBMSBody_entry entry = Some (t, rec).
Proof.
  destruct entry; cbn [usable];
    try (split; [discriminate | intros (t & rec & ?); discriminate]).
  rewrite ExtractBMSBody_entry_object.
  destruct (isNumberOrString _), (isStringOfLength 32 _),
    (isStringOfLength 64 _); simpl; split; eauto;
    try discriminate; intros (t & rec & ?); discriminate.
Qed.

(** The loop pushes, in order, exactly the usable elements. *)
Lemma ExtractBMSBody_loop items acc :
  map JObject (fold_left ExtractBMSBody_push items acc)
  = map JObject acc ++ List.filter usable items.
Proof.
  revert acc. induction items as [|entry items IH]; intros acc; simpl.
  - now rewrite app_nil_r.
  - rewrite IH. unfold ExtractBMSBody_push.
    destruct (ExtractBMSBody_entry entry) as [[t rec]|] eqn:E.
    + pose proof (ExtractBMSBody_entry_Some _ _ _ E) as ->.
      assert (usable (JObject rec) = true) as ->
        by (apply ExtractBMSBody_entry_usable; eauto).
      rewrite map_app. simpl. now rewrite <- app_assoc.
    + destruct (usable entry) eqn:U; [|reflexivity].
      apply ExtractBMSBody_entry_usable in U as (t & rec & U). congruence.
Qed.

Lemma ExtractBMSBody_array items :
  exists entries,
    ExtractBMSBody (JArray items) = Ok entries /\
    map JObject entries = List.filter usable items.
Proof.
  eexists. split; [reflexivity|]. now rewrite ExtractBMSBody_loop.
Qed.

Lemma excluded_not_usable entry : excluded entry <-> usable entry = false.
Proof.
  unfold excluded. split.
  - intros [-> | [H | [H | (rec & -> & H)]]]; try reflexivity.
    + destruct entry; try reflexivity. now destruct H.
    + destruct entry; try discriminate; reflexivity.
    + simpl. destruct H as [-> | [-> ->]]; [reflexivity|].
      now rewrite andb_false_r.
  - destruct entry; simpl; intros H;
      try (right; left; discriminate); try (now left);
      try (right; right; left; reflexivity).
    right; right; right. exists fields. split; [reflexivity|].
    apply andb_false_iff in H as [H | H]; [now left|].
    apply orb_false_iff in H. now right.
Qed.

Lemma ExtractBMSBody_elem (items : list JSValue)
    (entries : list (gmap (list N) JSValue))
    (rec : gmap (list N) JSValue) :
  ExtractBMSBody (JArray items) = Ok entries ->
  rec ∈ entries <-> JObject rec ∈ items /\ usable (JObject rec) = true.
Proof.
  intros H. destruct (ExtractBMSBody_array items) as (entries' & H' & Hmap).
  rewrite H in H'. injection H' as <-.
  rewrite !list_elem_of_In, <- filter_In, <- Hmap, in_map_iff. split.
  - eauto.
  - intros (rec' & [= ->] & ?). assumption.
Qed.

(** C6: [ExtractBMSBody] throws exactly when the decoded body is not an
    array.  The error it throws carries [typeof rawData], unless building
    its message fails: for a value that has no string form (an object with a
    [toString] field of its own) the TypeError of that conversion is thrown
    instead, and names no type.  On an array it always returns, its result
    holding exactly the elements that are not excluded (null, not an object,
    an array, a bad level, no usable identity), and the empty list when
    every element is excluded. *)
Theorem ExtractBMSBody_throws_iff_not_array (rawData : JSValue) :
  (forall e, ExtractBMSBody rawData = Throw e <->
     Array_isArray rawData = false /\
     e = if ToString_throws rawData
         then CannotConvertToPrimitive rawData
         else InvalidBody (typeof rawData) rawData) /\
  (forall items, rawData = JArray items ->
     exists entries,
       ExtractBMSBody rawData = Ok entries /\
       (forall rec, rec ∈ entries <->
          JObject rec ∈ items /\ ~ excluded (JObject rec)) /\
       (Forall excluded items -> entries = [])).
Proof.
  split.
  - intros e. destruct rawData; cbn [ExtractBMSBody Array_isArray]; split;
      try (intros [= <-]; split; reflexivity);
      try (intros [_ ->]; reflexivity);
      try discriminate.
    intros [? _]. discriminate.
  - intros items ->.
    destruct (ExtractBMSBody_array items) as (entries & H & Hmap).
    exists entries. split; [exact H|]. split.
    + intros rec. rewrite (ExtractBMSBody_elem _ _ _ H).
      rewrite excluded_not_usable.
      destruct (usable (JObject rec)); intuition congruence.
    + intros Hall.
      assert (List.filter usable items = []) as E.
      { clear H Hmap. induction Hall as [|entry items Hx _ IH]; simpl.
        - reflexivity.
        - apply excluded_not_usable in Hx. now rewrite Hx. }
      rewrite E in Hmap. now destruct entries.
Qed.

(** The scenario of the documentation: four unusable elements, no entry,
    no error; a body that is [null]; and a body that is an object with a
    [toString] field, for which the error that names the type is never
    built. *)
Lemma ExtractBMSBody_throws_iff_not_array_witness :
  ExtractBMSBody (JArray body_all_excluded) = Ok [] /\
  ExtractBMSBody JNull = Throw (InvalidBody t_object JNull) /\
  ExtractBMSBody (JObject object_with_toString)
    = Throw (CannotConvertToPrimitive (JObject object_with_toString)).
Proof.
  split; [|split].
  - destruct (ExtractBMSBody_throws_iff_not_array (JArray body_all_excluded))
      as [_ H].
    destruct (H _ eq_refl) as (entries & -> & _ & Hempty).
    rewrite Hempty; [reflexivity|].
    unfold body_all_excluded.
    repeat (constructor; [apply excluded_not_usable; reflexivity|]).
    constructor.
  - apply (ExtractBMSBody_throws_iff_not_array JNull). split; reflexivity.
  - apply (ExtractBMSBody_throws_iff_not_array (JObject object_with_toString)).
    split; reflexivity.
Defined.

(** The arm that accepts an entry is the checksum type the test of the
    later [GetEntryChecksum] expects, on each of its eleven objects. *)
Lemma ExtractBMSBody_entry_on_the_checksum_tests :
  Forall (fun c : JSValue * JSValue * ChecksumType =>
            ExtractBMSBody_entry (JObject (test_entry (fst (fst c)) (snd (fst c))))
            = Some (snd c, test_entry (fst (fst c)) (snd (fst c))))
         checksum_test_cases.
Proof. repeat constructor. Qed.

(** C1, as stated, fails: an [md5] of 32 characters that are not
    hexadecimal digits is accepted, through the md5 arm. *)
Lemma ExtractBMSBody_keeps_md5_that_is_not_hex :
  isHexString 32 (field entry_md5_not_hex "md5") = false /\
  ExtractBMSBody_entry (JObject entry_md5_not_hex)
    = Some (md5, entry_md5_not_hex) /\
  ExtractBMSBody (JArray [JObject entry_md5_not_hex])
    = Ok [entry_md5_not_hex].
Proof. repeat split; vm_compute; reflexivity. Qed.

(** C1, as amended: for an element of the body that is a non-array object
    with a number or string [level], the entry is kept through the md5 arm
    exactly when [md5] is a string of 32 characters; failing that, through
    the sha256 arm exactly when [sha256] is a string of 64 characters;
    failing both it is dropped; an entry valid on both counts takes the md5
    arm. *)
Theorem ExtractBMSBody_identity_by_length
    (items : list JSValue) (rec : gmap (list N) JSValue) :
  JObject rec ∈ items ->
  isNumberOrString (field rec "level") = true ->
  exists entries,
    ExtractBMSBody (JArray items) = Ok entries /\
    ((rec ∈ entries /\ ExtractBMSBody_entry (JObject rec) = Some (md5, rec)) <->
       isStringOfLength 32 (field rec "md5") = true) /\
    (isStringOfLength 32 (field rec "md5") = false ->
       ((rec ∈ entries /\
         ExtractBMSBody_entry (JObject rec) = Some (sha256, rec)) <->
          isStringOfLength 64 (field rec "sha256") = true)) /\
    (isStringOfLength 32 (field rec "md5") = false ->
     isStringOfLength 64 (field rec "sha256") = false ->
       (rec ∉ entries) /\ ExtractBMSBody_entry (JObject rec) = None) /\
    (isStringOfLength 32 (field rec "md5") = true ->
     isStringOfLength 64 (field rec "sha256") = true ->
       ExtractBMSBody_entry (JObject rec) = Some (md5, rec)).
Proof.
  intros Hin Hlevel.
  destruct (ExtractBMSBody_array items) as (entries & H & _).
  exists entries. split; [exact H|].
  pose proof (ExtractBMSBody_elem _ _ rec H) as Hel.
  rewrite ExtractBMSBody_entry_object, Hlevel.
  cbn [usable] in Hel. rewrite Hlevel in Hel. simpl in Hel.
  destruct (isStringOfLength 32 (field rec "md5")),
    (isStringOfLength 64 (field rec "sha256")); simpl in Hel;
    repeat split; try discriminate; try tauto; try congruence;
    try (intros [_ ?]; congruence).
  intros Hc. apply Hel in Hc as [_ ?]. discriminate.
Qed.

Lemma ExtractBMSBody_identity_by_length_witness :
  ExtractBMSBody (JArray [JNull; JObject entry_sha256; JObject entry_both])
    = Ok [entry_sha256; entry_both] /\
  ExtractBMSBody_entry (JObject entry_sha256) = Some (sha256, entry_sha256) /\
  ExtractBMSBody_entry (JObject entry_both) = Some (md5, entry_both).
Proof.
  split; [reflexivity|]. split.
  - assert (JObject entry_sha256 ∈
              [JNull; JObject entry_sha256; JObject entry_both]) as Hin
      by (right; left).
    destruct (ExtractBMSBody_identity_by_length _ _ Hin eq_refl)
      as (entries & _ & _ & Hsha & _).
    apply (Hsha eq_refl). reflexivity.
  - assert (JObject entry_both ∈
              [JNull; JObject entry_sha256; JObject entry_both]) as Hin
      by (right; right; left).
    destruct (ExtractBMSBody_identity_by_length _ _ Hin eq_refl)
      as (entries & _ & _ & _ & _ & Hboth).
    apply Hboth; reflexivity.
Defined.

(** ** The retrying fetcher *)

Section FetchFacts.
Variable P : Platform.
Variable url : list N.

Lemma attempt_0 log : attempt P url log 0 = network P log url.
Proof. unfold attempt. simpl. now rewrite app_nil_r. Qed.

Lemma attempt_S log i :
  attempt P url (log ++ [url]) i = attempt P url log (S i).
Proof. unfold attempt. simpl. now rewrite <- app_assoc. Qed.

Lemma replicate_S_log (log : list (list N)) n :
  (log ++ [url]) ++ replicate n url = log ++ replicate (S n) url.
Proof. simpl. now rewrite <- app_assoc. Qed.

Lemma FetchWithRetry_loop_S remaining lastRes log :
  FetchWithRetry_loop P url (S remaining) lastRes log =
    match network P log url with
    | Responds res =>
        if status res =? 200 then (Ok res, log ++ [url])
        else FetchWithRetry_loop P url remaining (Some res) (log ++ [url])
    | Rejects reason => (Throw (FetchRejected url reason), log ++ [url])
    end.
Proof.
  simpl. unfold bind, fetch.
  destruct (network P log url) as [res|reason]; [|reflexivity].
  destruct (status res =? 200); reflexivity.
Qed.

(** The first attempt answered with 200 ends the loop, with no request
    after it. *)
Lemma FetchWithRetry_loop_success remaining :
  forall k lastRes log res,
    (k < remaining)%nat ->
    (forall i, (i < k)%nat -> answersNot200 (attempt P url log i)) ->
    attempt P url log k = Responds res ->
    status res = 200 ->
    FetchWithRetry_loop P url remaining lastRes log
      = (Ok res, log ++ replicate (S k) url).
Proof.
  induction remaining as [|remaining IH]; intros k lastRes log res Hk Hbefore Hres H200;
    [lia|].
  rewrite FetchWithRetry_loop_S.
  destruct k as [|k].
  - rewrite attempt_0 in Hres. rewrite Hres.
    apply Z.eqb_eq in H200. now rewrite H200.
  - destruct (Hbefore 0%nat ltac:(lia)) as (r & Hr & Hne).
    rewrite attempt_0 in Hr. rewrite Hr.
    apply Z.eqb_neq in Hne. rewrite Hne.
    rewrite (IH k (Some r) (log ++ [url]) res).
    + now rewrite replicate_S_log.
    + lia.
    + intros i Hi. rewrite attempt_S. apply Hbefore. lia.
    + now rewrite attempt_S.
    + assumption.
Qed.

(** When every attempt is answered with another status, the loop runs out
    and throws with the status of the last response. *)
Lemma FetchWithRetry_loop_exhausted remaining :
  forall lastRes log,
    (forall i, (i < remaining)%nat -> answersNot200 (attempt P url log i)) ->
    FetchWithRetry_loop P url remaining lastRes log
      = (Throw match lastResponse P url log remaining lastRes with
               | None => ZeroRetries url
               | Some res => FetchFailed url (status res)
               end,
         log ++ replicate remaining url).
Proof.
  induction remaining as [|remaining IH]; intros lastRes log Hall.
  - simpl. rewrite app_nil_r. destruct lastRes; reflexivity.
  - rewrite FetchWithRetry_loop_S.
    destruct (Hall 0%nat ltac:(lia)) as (r & Hr & Hne).
    rewrite attempt_0 in Hr. rewrite Hr.
    apply Z.eqb_neq in Hne. rewrite Hne.
    rewrite IH by (intros i Hi; rewrite attempt_S; apply Hall; lia).
    rewrite replicate_S_log. f_equal. f_equal.
    destruct (Hall remaining ltac:(lia)) as (r' & Hr' & _).
    cbn [lastResponse]. rewrite Hr'.
    destruct remaining as [|remaining'].
    + simpl. rewrite attempt_0 in Hr'. congruence.
    + cbn [lastResponse]. rewrite attempt_S, Hr'. reflexivity.
Qed.

(** The loop makes at most [remaining] requests, all for [url]. *)
Lemma FetchWithRetry_loop_bound remaining :
  forall lastRes log,
    exists n, (n <= remaining)%nat /\
      snd (FetchWithRetry_loop P url remaining lastRes log)
        = log ++ replicate n url.
Proof.
  induction remaining as [|remaining IH]; intros lastRes log.
  - exists 0%nat. split; [lia|]. simpl. rewrite app_nil_r.
    destruct lastRes; reflexivity.
  - rewrite FetchWithRetry_loop_S.
    destruct (network P log url) as [res|reason].
    + destruct (status res =? 200).
      * exists 1%nat. split; [lia|]. reflexivity.
      * destruct (IH (Some res) (log ++ [url])) as (n & Hn & ->).
        exists (S n). split; [lia|]. apply replicate_S_log.
    + exists 1%nat. split; [lia|]. reflexivity.
Qed.

(** What the loop returns is a response with status 200. *)
Lemma FetchWithRetry_loop_Ok remaining :
  forall lastRes log res log',
    FetchWithRetry_loop P url remaining lastRes log = (Ok res, log') ->
    status res = 200.
Proof.
  induction remaining as [|remaining IH]; intros lastRes log res log'.
  - simpl. destruct lastRes; discriminate.
  - rewrite FetchWithRetry_loop_S.
    destruct (network P log url) as [r|reason]; [|discriminate].
    destruct (status r =? 200) eqn:E.
    + intros [= <- _]. now apply Z.eqb_eq.
    + apply IH.
Qed.
End FetchFacts.

(** C3: [FetchWithRetry] returns a response as soon as an attempt is
    answered with status 200, making no request after it, and returns no
    response of another status; with the default
    bound it makes at most 3 requests; when every attempt is answered with
    another status it throws the error that carries the status of the last
    response; with a bound of zero it makes no request and throws the
    error about 0 retries. *)
Theorem FetchWithRetry_returns_or_throws
    (P : Platform) (url : list N) (log : list (list N)) :
  (forall retryCount k res,
     Z.of_nat k < retryCount ->
     (forall i, (i < k)%nat -> answersNot200 (attempt P url log i)) ->
     attempt P url log k = Responds res ->
     status res = 200 ->
     FetchWithRetry P url retryCount log
       = (Ok res, log ++ replicate (S k) url)) /\
  (forall retryCount res log',
     FetchWithRetry P url retryCount log = (Ok res, log') ->
     status res = 200) /\
  (exists n, (n <= 3)%nat /\
     snd (FetchWithRetry P url default_retryCount log)
       = log ++ replicate n url) /\
  (forall retryCount,
     0 < retryCount ->
     (forall i, Z.of_nat i < retryCount ->
                answersNot200 (attempt P url log i)) ->
     exists lastRes,
       attempt P url log (Z.to_nat retryCount - 1) = Responds lastRes /\
       FetchWithRetry P url retryCount log
         = (Throw (FetchFailed url (status lastRes)),
            log ++ replicate (Z.to_nat retryCount) url)) /\
  FetchWithRetry P url 0 log = (Throw (ZeroRetries url), log).
Proof.
  split; [|split; [|split; [|split]]].
  - intros retryCount k res Hk Hbefore Hres H200.
    apply FetchWithRetry_loop_success; try assumption. lia.
  - intros retryCount res log'. apply FetchWithRetry_loop_Ok.
  - apply (FetchWithRetry_loop_bound P url 3).
  - intros retryCount Hpos Hall. unfold FetchWithRetry.
    rewrite FetchWithRetry_loop_exhausted by (intros i Hi; apply Hall; lia).
    destruct (Z.to_nat retryCount) as [|n] eqn:En; [lia|].
    destruct (Hall n ltac:(lia)) as (r & Hr & _).
    exists r. replace (S n - 1)%nat with n by lia.
    split; [exact Hr|]. cbn [lastResponse]. now rewrite Hr.
  - reflexivity.
Qed.

(** A host that answers 500 three times; a host that answers 503 and then
    200; a bound of zero. *)
Lemma FetchWithRetry_returns_or_throws_witness :
  FetchWithRetry failing_platform table_url 3 []
    = (Throw (FetchFailed table_url 500), [table_url; table_url; table_url]) /\
  FetchWithRetry sample_platform table_url 3 []
    = (Ok (mkResponse 200 (Some (js "text/html")) wrapper_text),
       [table_url; table_url]) /\
  FetchWithRetry sample_platform table_url 0 []
    = (Throw (ZeroRetries table_url), []).
Proof.
  split; [|split].
  - destruct (FetchWithRetry_returns_or_throws failing_platform table_url [])
      as (_ & _ & _ & Hfail & _).
    destruct (Hfail 3 ltac:(lia)) as (lastRes & Hlast & ->).
    + intros i _. eexists. split; [reflexivity|]. discriminate.
    + injection Hlast as <-. reflexivity.
  - destruct (FetchWithRetry_returns_or_throws sample_platform table_url [])
      as (Hok & _).
    apply (Hok 3 1%nat).
    + lia.
    + intros i Hi. assert (i = 0%nat) as -> by lia.
      eexists. split; [reflexivity|]. discriminate.
    + reflexivity.
    + reflexivity.
  - apply (FetchWithRetry_returns_or_throws sample_platform table_url []).
Defined.

(** ** The header schema *)

Lemma z_string_ok path v : z_string path v = [] <-> isString v = true.
Proof. destruct v; simpl; split; congruence. Qed.

Lemma z_level_ok path v :
  z_union [z_number; z_string] path v = [] <-> isLevel v = true.
Proof.
  unfold z_union. destruct v; simpl; try (split; congruence).
  destruct (isNaN n); simpl; split; congruence.
Qed.

Lemma z_levels_items_ok (at_index : nat -> list PathItem) items :
  concat (imap (fun i item => z_union [z_number; z_string] (at_index i) item)
               items) = []
  <-> forallb isLevel items = true.
Proof.
  revert at_index. induction items as [|item items IH]; intros at_index.
  - simpl. tauto.
  - cbn [imap concat forallb].
    change (imap _ items) with
      (imap (fun i item => z_union [z_number; z_string] (at_index (S i)) item)
            items).
    rewrite andb_true_iff, <- (IH (fun i => at_index (S i))),
      <- (z_level_ok (at_index 0%nat) item).
    split.
    + intros H. apply app_eq_nil in H. exact H.
    + intros [-> ->]. reflexivity.
Qed.

Lemma z_optional_levels_ok path v :
  z_optional (z_array (z_union [z_number; z_string])) path v = []
  <-> isOptionalLevels v = true.
Proof.
  destruct v; simpl; try (split; congruence).
  apply (z_levels_items_ok (fun i => path ++ [p_index i])).
Qed.

Lemma HEAD_SCHEMA_ok v : safeParse HEAD_SCHEMA v = [] <-> isHeader v = true.
Proof.
  unfold safeParse, HEAD_SCHEMA, z_object.
  destruct v; simpl; try (split; congruence).
  rewrite app_nil_r.
  rewrite !andb_true_iff.
  rewrite <- (z_string_ok [p_key "name"]), <- (z_string_ok [p_key "symbol"]),
    <- (z_string_ok [p_key "data_url"]),
    <- (z_optional_levels_ok [p_key "levels"]),
    <- (z_optional_levels_ok [p_key "level_order"]).
  split.
  - intros H.
    repeat (apply app_eq_nil in H; destruct H as [? H]). tauto.
  - intros [[[[-> ->] ->] ->] ->]. reflexivity.
Qed.

Lemma isHeader_object v :
  isHeader v = true -> exists o, v = JObject o.
Proof. destruct v; try discriminate. eauto. Qed.

(** ** The loader *)

Lemma bind_Ok {A B} (m : IO A) (k : A -> IO B) log b log' :
  bind m k log = (Ok b, log') ->
  exists a log1, m log = (Ok a, log1) /\ k a log1 = (Ok b, log').
Proof.
  unfold bind. destruct (m log) as [[a|e] log1]; [eauto | discriminate].
Qed.

Lemma bind_after {A B} (m : IO A) (k : A -> IO B) log a log1 :
  m log = (Ok a, log1) -> bind m k log = k a log1.
Proof. unfold bind. now intros ->. Qed.

Section LoaderFacts.
Variable P : Platform.

Lemma FetchWithRetry_Ok url retryCount log res log' :
  FetchWithRetry P url retryCount log = (Ok res, log') -> status res = 200.
Proof. apply FetchWithRetry_loop_Ok. Qed.

(** A successful load, step by step. *)
Lemma LoadBMSTable_Ok url log t log' :
  LoadBMSTable P url log = (Ok t, log') ->
  exists headerLocation log1 bodyLocation bodyRes items,
    LoadBMSTable_header P url log
      = (Ok (headerLocation, JObject (head t)), log1) /\
    isHeader (JObject (head t)) = true /\
    URL_href P (data_url (head t)) headerLocation = Some bodyLocation /\
    FetchWithRetry P bodyLocation default_retryCount log1
      = (Ok bodyRes, log') /\
    BrokenBMSJSONParse P (text bodyRes) = inr (JArray items) /\
    map JObject (body t) = List.filter usable items.
Proof.
  unfold LoadBMSTable. intros H.
  apply bind_Ok in H as ([headerLocation v] & log1 & Hheader & H).
  cbn [fst snd] in H.
  destruct v as [| | | | | |headerJSON]; try discriminate.
  destruct (safeParse HEAD_SCHEMA (JObject headerJSON)) eqn:Hschema;
    [|discriminate].
  apply bind_Ok in H as (bodyLocation & log2 & Hurl & H).
  unfold new_URL in Hurl.
  destruct (URL_href P (data_url headerJSON) headerLocation) as [href|]
    eqn:Hhref; [|discriminate].
  injection Hurl as <- <-.
  apply bind_Ok in H as (bodyRes & log3 & Hbody & H).
  destruct (BrokenBMSJSONParse P (text bodyRes)) as [err|rawBodyJSON] eqn:Hparse;
    [discriminate|].
  destruct rawBodyJSON; try discriminate.
  destruct (ExtractBMSBody_array items) as (entries & Hentries & Hmap).
  rewrite Hentries in H. injection H as <- <-.
  exists headerLocation, log1, href, bodyRes, items.
  cbn [head body]. repeat split; try assumption.
  now apply HEAD_SCHEMA_ok.
Qed.

(** A header that is decoded but does not pass the schema. *)
Lemma LoadBMSTable_invalid_header url log headerLocation headerJSON log1 :
  LoadBMSTable_header P url log = (Ok (headerLocation, headerJSON), log1) ->
  isHeader headerJSON = false ->
  LoadBMSTable P url log
    = (Throw (InvalidHead (safeParse HEAD_SCHEMA headerJSON)), log1).
Proof.
  intros Hheader Hbad. unfold LoadBMSTable.
  rewrite (bind_after _ _ _ _ _ Hheader). cbn [fst snd].
  destruct (safeParse HEAD_SCHEMA headerJSON) eqn:Hschema.
  - apply HEAD_SCHEMA_ok in Hschema. congruence.
  - destruct headerJSON; reflexivity.
Qed.

(** An HTML page in which [ReadMetaTag] finds nothing it can use. *)
Lemma LoadBMSTable_no_pointer url log firstRes log1 :
  FetchWithRetry P url default_retryCount log = (Ok firstRes, log1) ->
  IsHTMLOrJSON firstRes (text firstRes) = doc_html ->
  ReadMetaTag (text firstRes) = None \/ ReadMetaTag (text firstRes) = Some [] ->
  LoadBMSTable P url log = (Throw (NoBmstableTag url), log1).
Proof.
  intros Hfetch Htype Htag. unfold LoadBMSTable, LoadBMSTable_header.
  unfold bind at 1. unfold bind at 1. rewrite Hfetch. cbn zeta.
  rewrite Htype. destruct Htag as [-> | ->]; reflexivity.
Qed.
End LoaderFacts.

Lemma BrokenBMSJSONParse_without_BOM (P : Platform) (str : list N) :
  BrokenBMSJSONParse P str = JSON_parse P (withoutLeadingBOM str).
Proof.
  unfold BrokenBMSJSONParse, BOM. destruct str as [|c rest]; [reflexivity|].
  cbn [startsWith withoutLeadingBOM]. unfold codeunit_eqb.
  destruct (N.eqb c 0xFEFF) eqn:E; [|reflexivity].
  cbn [andb replace startsWith]. unfold codeunit_eqb. rewrite E. reflexivity.
Qed.

(** C8: decoding a text behind one byte order mark gives what decoding the
    text itself gives; the mark apart, the decoder hands the text to
    [JSON.parse] as it is, so a text that is invalid once the mark is gone
    fails with the error of [JSON.parse]. *)
Theorem BrokenBMSJSONParse_ignores_one_BOM (P : Platform) (str : list N) :
  BrokenBMSJSONParse P (BOM ++ str) = JSON_parse P str /\
  (startsWith str BOM = false ->
     BrokenBMSJSONParse P (BOM ++ str) = BrokenBMSJSONParse P str) /\
  (forall err,
     JSON_parse P (withoutLeadingBOM str) = inl err ->
     BrokenBMSJSONParse P str = inl err).
Proof.
  rewrite !BrokenBMSJSONParse_without_BOM. repeat split.
  - intros H. destruct str as [|c rest]; [reflexivity|].
    cbn [startsWith BOM] in H. unfold codeunit_eqb in H.
    rewrite andb_true_r in H. cbn [withoutLeadingBOM app BOM].
    now rewrite H.
  - trivial.
Qed.

Lemma BrokenBMSJSONParse_ignores_one_BOM_witness :
  BrokenBMSJSONParse sample_platform (BOM ++ head_json)
    = inr (JObject sample_head) /\
  BrokenBMSJSONParse sample_platform (BOM ++ head_json)
    = BrokenBMSJSONParse sample_platform head_json /\
  BrokenBMSJSONParse sample_platform (BOM ++ js "{name:")
    = inl (js "SyntaxError: Unexpected token").
Proof.
  destruct (BrokenBMSJSONParse_ignores_one_BOM sample_platform head_json)
    as (Hparse & Hsame & _).
  split; [rewrite Hparse; reflexivity|].
  split; [apply Hsame; reflexivity|].
  apply (BrokenBMSJSONParse_ignores_one_BOM sample_platform (BOM ++ js "{name:")).
  reflexivity.
Defined.

(** C2, as stated, fails: the entry the normalizer returns is the raw
    object of the body and nothing more, not an object that wraps it with
    its checksum. *)
Lemma ExtractBMSBody_returns_the_raw_entry :
  ExtractBMSBody (JArray [JObject entry_md5]) = Ok [entry_md5] /\
  dom entry_md5 = {[ js "level"; js "md5" ]} /\
  README_entry md5 VALID_MD5 entry_md5 <> entry_md5.
Proof.
  split; [reflexivity|]. split.
  - unfold entry_md5. rewrite !dom_insert_L, dom_empty_L. set_solver.
  - intros H. apply (f_equal (fun o => field o "content")) in H.
    vm_compute in H. discriminate.
Qed.

(** C2, as amended: the body of a returned table holds the usable elements
    of the decoded body document, in the order of the document and as often
    as they occur there; every entry is the raw object itself, so its
    [level] and all of its fields are the document's, and the loop accepted
    it through its md5 or its sha256 arm. *)
Theorem LoadBMSTable_body_in_document_order
    (P : Platform) (url : list N) (log log' : list (list N)) (t : BMSTable) :
  LoadBMSTable P url log = (Ok t, log') ->
  exists headerLocation log1 bodyLocation bodyRes items,
    LoadBMSTable_header P url log
      = (Ok (headerLocation, JObject (head t)), log1) /\
    URL_href P (data_url (head t)) headerLocation = Some bodyLocation /\
    FetchWithRetry P bodyLocation default_retryCount log1 = (Ok bodyRes, log') /\
    BrokenBMSJSONParse P (text bodyRes) = inr (JArray items) /\
    map JObject (body t) = List.filter usable items /\
    (forall entry : gmap (list N) JSValue, entry ∈ body t ->
       JObject entry ∈ items /\
       isNumberOrString (field entry "level") = true /\
       exists type, ExtractBMSBody_entry (JObject entry) = Some (type, entry)).
Proof.
  intros H.
  destruct (LoadBMSTable_Ok _ _ _ _ _ H)
    as (headerLocation & log1 & bodyLocation & bodyRes & items &
        Hheader & _ & Hurl & Hfetch & Hparse & Hmap).
  exists headerLocation, log1, bodyLocation, bodyRes, items.
  repeat split; try assumption.
  - apply list_elem_of_In. apply (filter_In usable). rewrite <- Hmap.
    apply in_map. now apply list_elem_of_In.
  - assert (In (JObject entry) (List.filter usable items)) as Hin
      by (rewrite <- Hmap; apply in_map; now apply list_elem_of_In).
    apply filter_In in Hin as [_ Hin]. cbn [usable] in Hin.
    now apply andb_true_iff in Hin as [? _].
  - assert (In (JObject entry) (List.filter usable items)) as Hin
      by (rewrite <- Hmap; apply in_map; now apply list_elem_of_In).
    apply filter_In in Hin as [_ Hin].
    apply ExtractBMSBody_entry_usable in Hin as (type & rec & Hin).
    pose proof (ExtractBMSBody_entry_Some _ _ _ Hin) as [= <-]. eauto.
Qed.

Lemma LoadBMSTable_body_in_document_order_witness :
  LoadBMSTable sample_platform table_url []
    = (Ok sample_table, [table_url; table_url; head_url; body_url]) /\
  map JObject (body sample_table) = List.filter usable sample_body.
Proof.
  assert (LoadBMSTable sample_platform table_url []
            = (Ok sample_table, [table_url; table_url; head_url; body_url]))
    as Hload by (vm_compute; reflexivity).
  split; [exact Hload|].
  destruct (LoadBMSTable_body_in_document_order _ _ _ _ _ Hload)
    as (headerLocation & log1 & bodyLocation & bodyRes & items &
        Hheader & Hurl & Hfetch & Hparse & Hmap & _).
  vm_compute in Hheader. injection Hheader as <- <-.
  vm_compute in Hurl. injection Hurl as <-.
  vm_compute in Hfetch. injection Hfetch as <-.
  vm_compute in Hparse. injection Hparse as <-.
  exact Hmap.
Defined.

(** The header a load goes on with was decoded from the document fetched
    at [headerLocation]. *)
Lemma LoadBMSTable_header_Ok
    (P : Platform) (url : list N) (log log1 : list (list N))
    (headerLocation : list N) (headerJSON : JSValue) :
  LoadBMSTable_header P url log = (Ok (headerLocation, headerJSON), log1) ->
  exists headerRes log0,
    FetchWithRetry P headerLocation default_retryCount log0
      = (Ok headerRes, log1) /\
    BrokenBMSJSONParse P (text headerRes) = inr headerJSON.
Proof.
  unfold LoadBMSTable_header. intros H.
  apply bind_Ok in H as (firstRes & log2 & Hfirst & H).
  cbn zeta in H.
  destruct (IsHTMLOrJSON firstRes (text firstRes)).
  - destruct (ReadMetaTag (text firstRes)) as [[|c bmstable]|]; try discriminate.
    apply bind_Ok in H as (location & log3 & Hurl & H).
    unfold new_URL in Hurl.
    destruct (URL_href P (c :: bmstable) url); [|discriminate].
    injection Hurl as <- <-.
    apply bind_Ok in H as (headerRes & log4 & Hfetch & H).
    destruct (BrokenBMSJSONParse P (text headerRes)) eqn:Hparse;
      [discriminate|].
    injection H as <- <- <-. eauto.
  - destruct (BrokenBMSJSONParse P (text firstRes)) eqn:Hparse;
      [discriminate|].
    injection H as <- <- <-. eauto.
Qed.

(** C5, as stated, fails: a header that spells the location of the body
    [dataLocation] has the shape the claim describes, and the schema refuses
    it for its missing [data_url]. *)
Lemma HEAD_SCHEMA_refuses_dataLocation :
  isHeader_either_spelling (JObject head_dataLocation) = true /\
  safeParse HEAD_SCHEMA (JObject head_dataLocation)
    = [mkIssue invalid_type [p_key "data_url"]] /\
  LoadBMSTable sample_platform other_head_url []
    = (Throw (InvalidHead [mkIssue invalid_type [p_key "data_url"]]),
       [other_head_url; other_head_url]).
Proof. repeat split; vm_compute; reflexivity. Qed.

(** C5, as amended: the schema accepts a decoded value exactly when it is
    an object whose [name], [symbol] and [data_url] are strings and whose
    [levels] and [level_order] are each absent or a sequence of numbers and
    strings; a decoded header it does not accept makes [LoadBMSTable] throw
    the error about an invalid head, with the issues found. *)
Theorem HEAD_SCHEMA_accepts_iff_header (headerJSON : JSValue) :
  (safeParse HEAD_SCHEMA headerJSON = [] <->
     exists o : gmap (list N) JSValue,
       headerJSON = JObject o /\
       isString (field o "name") = true /\
       isString (field o "symbol") = true /\
       isString (field o "data_url") = true /\
       isOptionalLevels (field o "levels") = true /\
       isOptionalLevels (field o "level_order") = true) /\
  (forall (P : Platform) (url : list N) (log log1 : list (list N))
          (headerLocation : list N),
     LoadBMSTable_header P url log = (Ok (headerLocation, headerJSON), log1) ->
     safeParse HEAD_SCHEMA headerJSON <> [] ->
     exists issues,
       issues <> [] /\
       LoadBMSTable P url log = (Throw (InvalidHead issues), log1)).
Proof.
  split.
  - rewrite HEAD_SCHEMA_ok. split.
    + intros H. destruct headerJSON; try discriminate.
      exists fields. cbn [isHeader] in H.
      rewrite !andb_true_iff in H. tauto.
    + intros (o & -> & H1 & H2 & H3 & H4 & H5). cbn [isHeader].
      now rewrite H1, H2, H3, H4, H5.
  - intros P url log log1 headerLocation Hheader Hbad.
    exists (safeParse HEAD_SCHEMA headerJSON). split; [exact Hbad|].
    apply LoadBMSTable_invalid_header with headerLocation; [exact Hheader|].
    destruct (isHeader headerJSON) eqn:E; [|reflexivity].
    apply HEAD_SCHEMA_ok in E. contradiction.
Qed.

Lemma HEAD_SCHEMA_accepts_iff_header_witness :
  safeParse HEAD_SCHEMA (JObject sample_head) = [] /\
  exists issues,
    issues <> [] /\
    LoadBMSTable sample_platform other_head_url []
      = (Throw (InvalidHead issues), [other_head_url; other_head_url]).
Proof.
  split.
  - apply (HEAD_SCHEMA_accepts_iff_header (JObject sample_head)).
    exists sample_head. repeat split; reflexivity.
  - apply (HEAD_SCHEMA_accepts_iff_header (JObject head_dataLocation))
      with (headerLocation := other_head_url).
    + reflexivity.
    + discriminate.
Defined.

(** C7: the head of a returned table is the object decoded from the header
    document, whole: it passed the schema, and the table holds that very
    object, with every field the document had. *)
Theorem LoadBMSTable_keeps_header_verbatim
    (P : Platform) (url : list N) (log log' : list (list N)) (t : BMSTable) :
  LoadBMSTable P url log = (Ok t, log') ->
  exists headerLocation headerRes log0 log1,
    FetchWithRetry P headerLocation default_retryCount log0
      = (Ok headerRes, log1) /\
    BrokenBMSJSONParse P (text headerRes) = inr (JObject (head t)) /\
    LoadBMSTable_header P url log
      = (Ok (headerLocation, JObject (head t)), log1) /\
    safeParse HEAD_SCHEMA (JObject (head t)) = [].
Proof.
  intros H.
  destruct (LoadBMSTable_Ok _ _ _ _ _ H)
    as (headerLocation & log1 & _ & _ & _ & Hheader & Hshape & _).
  destruct (LoadBMSTable_header_Ok _ _ _ _ _ _ Hheader)
    as (headerRes & log0 & Hfetch & Hparse).
  exists headerLocation, headerRes, log0, log1.
  repeat split; try assumption. now apply HEAD_SCHEMA_ok.
Qed.

(** The sample header has an [author] the schema knows nothing of; the
    table still has it. *)
Lemma LoadBMSTable_keeps_header_verbatim_witness :
  LoadBMSTable sample_platform table_url []
    = (Ok sample_table, [table_url; table_url; head_url; body_url]) /\
  BrokenBMSJSONParse sample_platform head_text = inr (JObject (head sample_table)) /\
  field (head sample_table) "author" = JString (js "someone").
Proof.
  assert (LoadBMSTable sample_platform table_url []
            = (Ok sample_table, [table_url; table_url; head_url; body_url]))
    as Hload by (vm_compute; reflexivity).
  split; [exact Hload|].
  destruct (LoadBMSTable_keeps_header_verbatim _ _ _ _ _ Hload)
    as (headerLocation & headerRes & log0 & log1 & _ & _ & _ & _).
  split; vm_compute; reflexivity.
Defined.

(** ** The level order *)
Lemma SFcompare_Eq a b :
  SFcompare a b = Some Eq ->
  isNaN a = false /\ levelKey (JNumber a) = levelKey (JNumber b).
Proof.
  destruct a as [sa|sa| |sa ma ea], b as [sb|sb| |sb mb eb]; simpl;
    try discriminate; try (destruct sa; discriminate);
    try (destruct sb; discriminate).
  - auto.
  - destruct sa, sb; try discriminate; auto.
  - destruct sa, sb; try discriminate.
    + destruct (Z.compare_spec ea eb) as [-> | |]; try discriminate.
      change (Pos.compare_cont Eq ma mb) with (Pos.compare ma mb).
      destruct (Pos.compare_spec ma mb) as [-> | |]; try discriminate. auto.
    + destruct (Z.compare_spec ea eb) as [-> | |]; try discriminate.
      change (Pos.compare_cont Eq ma mb) with (Pos.compare ma mb).
      destruct (Pos.compare_spec ma mb) as [-> | |]; try discriminate. auto.
Qed.

Lemma SFcompare_refl a : isNaN a = false -> SFcompare a a = Some Eq.
Proof.
  destruct a as [sa|sa| |sa ma ea]; simpl; try discriminate; intros _.
  - reflexivity.
  - destruct sa; reflexivity.
  - rewrite Z.compare_refl.
    change (Pos.compare_cont Eq ma ma) with (Pos.compare ma ma).
    rewrite Pos.compare_refl. destruct sa; reflexivity.
Qed.

Lemma SFeqb_eq a b :
  SFeqb a b = true <->
  isNaN a = false /\ levelKey (JNumber a) = levelKey (JNumber b).
Proof.
  unfold SFeqb. split.
  - destruct (SFcompare a b) as [[| |]|] eqn:E; try discriminate.
    intros _. now apply SFcompare_Eq.
  - intros [Hnan Hkey].
    destruct a as [sa|sa| |sa ma ea], b as [sb|sb| |sb mb eb];
      try discriminate; try reflexivity;
      try (injection Hkey as <-; rewrite SFcompare_refl; reflexivity);
      try (injection Hkey as <- <- <-; rewrite SFcompare_refl; reflexivity).
Qed.

Lemma SameValueZero_number nx ny :
  SameValueZero (JNumber nx) (JNumber ny) = (isNaN nx && isNaN ny) || SFeqb nx ny.
Proof. destruct nx, ny; reflexivity. Qed.

Lemma jsstring_eqb_eq a b : jsstring_eqb a b = true <-> a = b.
Proof.
  revert b. induction a as [|x a IH]; intros [|y b]; simpl;
    try (split; congruence).
  unfold codeunit_eqb. rewrite andb_true_iff, N.eqb_eq, IH.
  split; [intros [-> ->]; reflexivity | intros [= -> ->]; auto].
Qed.

Lemma SameValueZero_key x y :
  SameValueZero x y = true <->
  isPrimitive x = true /\ levelKey x = levelKey y.
Proof.
  destruct x as [| |bx|nx|sx|xs|ox].
  1-3,5-7: destruct y as [| |by'|ny|sy|ys|oy]; simpl;
    try tauto;
    try (split; [discriminate | intros [_ H]; try discriminate; destruct ny; discriminate]);
    try (split; [discriminate | intros [[=] _]]).
  - rewrite Bool.eqb_true_iff. split; [intros ->; auto | intros [_ [=]]; auto].
  - rewrite jsstring_eqb_eq. split; [intros ->; auto | intros [_ [=]]; auto].
  - destruct y as [| |by'|ny|sy|ys|oy];
      try (split; [destruct nx; discriminate | intros [_ H]; destruct nx; discriminate]).
    rewrite SameValueZero_number, orb_true_iff, andb_true_iff, SFeqb_eq.
    destruct nx, ny; simpl; intuition congruence.
Qed.

Lemma levelKey_isPrimitive x y :
  levelKey x = levelKey y -> isPrimitive x = isPrimitive y.
Proof.
  destruct x as [| |bx|nx|sx|xs|ox], y as [| |by'|ny|sy|ys|oy]; simpl;
    try reflexivity; try discriminate;
    try (destruct nx; discriminate); try (destruct ny; discriminate).
Qed.

Lemma SameValueZero_sym x y : SameValueZero x y = SameValueZero y x.
Proof.
  destruct (SameValueZero x y) eqn:E, (SameValueZero y x) eqn:E';
    try reflexivity.
  - apply SameValueZero_key in E as [Hp Hk].
    rewrite <- E'. symmetry. apply SameValueZero_key.
    rewrite <- (levelKey_isPrimitive _ _ Hk). auto.
  - apply SameValueZero_key in E' as [Hp Hk].
    rewrite <- E. apply SameValueZero_key.
    rewrite <- (levelKey_isPrimitive _ _ Hk). auto.
Qed.

Lemma SameValueZero_trans x y z :
  SameValueZero x y = true -> SameValueZero y z = true ->
  SameValueZero x z = true.
Proof.
  rewrite !SameValueZero_key. intros [Hp ->] [_ ->]. auto.
Qed.

Lemma SameValueZero_refl x : isPrimitive x = true -> SameValueZero x x = true.
Proof. intros H. apply SameValueZero_key. auto. Qed.

(** Type-sensitive: a number is never the same as a string. *)
Lemma SameValueZero_number_string n s :
  SameValueZero (JNumber n) (JString s) = false.
Proof. destruct n; reflexivity. Qed.

Lemma Array_includes_app xs ys v :
  Array_includes (xs ++ ys) v = Array_includes xs v || Array_includes ys v.
Proof. apply existsb_app. Qed.

(** A value the same as one that [levels] includes is included too. *)
Lemma Array_includes_same levels v w :
  Array_includes levels v = true -> SameValueZero v w = true ->
  Array_includes levels w = true.
Proof.
  unfold Array_includes. rewrite !existsb_exists.
  intros (a & Hin & Hva) Hvw. exists a. split; [exact Hin|].
  apply SameValueZero_trans with v; [|exact Hva].
  now rewrite SameValueZero_sym.
Qed.

(** The loop of [getLevelOrder], from any state of [levels]: it appends the
    distinct values to come that [levels] does not include yet. *)
Lemma sniffLevel_loop body0 : forall levels,
  fold_left sniffLevel body0 levels =
    levels ++ List.filter (fun w => negb (Array_includes levels w))
                          (distinctFirstSeen (map levelOf body0)).
Proof.
  induction body0 as [|chart body0 IH]; intros levels.
  - simpl. now rewrite app_nil_r.
  - cbn [fold_left map distinctFirstSeen List.filter]. rewrite IH.
    unfold sniffLevel. fold (levelOf chart).
    generalize (distinctFirstSeen (map levelOf body0)) as seen. intros seen.
    destruct (Array_includes levels (levelOf chart)) eqn:Hinc; cbn [negb].
    + f_equal. induction seen as [|w seen IHs]; [reflexivity|].
      cbn [List.filter].
      destruct (SameValueZero (levelOf chart) w) eqn:Hsame; cbn [negb].
      * rewrite (Array_includes_same _ _ _ Hinc Hsame). exact IHs.
      * cbn [List.filter]. now rewrite IHs.
    + rewrite <- app_assoc. f_equal. cbn [app]. f_equal.
      induction seen as [|w seen IHs]; [reflexivity|].
      cbn [List.filter]. rewrite Array_includes_app.
      unfold Array_includes at 2. cbn [existsb]. rewrite orb_false_r.
      rewrite (SameValueZero_sym w (levelOf chart)).
      destruct (SameValueZero (levelOf chart) w); cbn [negb].
      * rewrite orb_true_r. exact IHs.
      * rewrite orb_false_r. cbn [List.filter].
        destruct (Array_includes levels w); cbn [negb]; now rewrite IHs.
Qed.

Lemma sniffLevel_distinctFirstSeen body0 :
  fold_left sniffLevel body0 [] = distinctFirstSeen (map levelOf body0).
Proof.
  rewrite sniffLevel_loop. cbn [app].
  unfold Array_includes. cbn [existsb negb].
  induction (distinctFirstSeen (map levelOf body0)) as [|w seen IH];
    [reflexivity|].
  cbn [List.filter]. now rewrite IH.
Qed.

(** What [distinctFirstSeen] yields: values of the sequence in its order,
    no two of them the same, every value of the sequence among them. *)
Lemma filter_sublist (p : JSValue -> bool) vs : sublist (List.filter p vs) vs.
Proof.
  induction vs as [|v vs IH]; simpl; [constructor|].
  destruct (p v); now constructor.
Qed.

Lemma distinctFirstSeen_sublist vs : sublist (distinctFirstSeen vs) vs.
Proof.
  induction vs as [|v vs IH]; simpl; [constructor|].
  constructor. etransitivity; [apply filter_sublist | exact IH].
Qed.

Lemma pairwiseDistinct_filter (p : JSValue -> bool) vs :
  pairwiseDistinct vs -> pairwiseDistinct (List.filter p vs).
Proof.
  induction vs as [|v vs IH]; simpl; [trivial|]. intros [Hv Hvs].
  destruct (p v); simpl; [|auto]. split; [|auto].
  apply List.Forall_forall. intros w Hw. apply filter_In in Hw as [Hw _].
  rewrite List.Forall_forall in Hv. auto.
Qed.

Lemma distinctFirstSeen_pairwiseDistinct vs :
  pairwiseDistinct (distinctFirstSeen vs).
Proof.
  induction vs as [|v vs IH]; simpl; [trivial|]. split.
  - apply List.Forall_forall. intros w Hw. apply filter_In in Hw as [_ Hw].
    now apply negb_true_iff in Hw.
  - now apply pairwiseDistinct_filter.
Qed.

Lemma distinctFirstSeen_includes vs v :
  In v vs -> isPrimitive v = true ->
  Array_includes (distinctFirstSeen vs) v = true.
Proof.
  intros Hin Hprim. induction vs as [|u vs IH]; [destruct Hin|].
  cbn [distinctFirstSeen]. unfold Array_includes. cbn [existsb].
  destruct (SameValueZero v u) eqn:Hvu; [reflexivity|]. cbn [orb].
  destruct Hin as [-> | Hin];
    [now rewrite SameValueZero_refl in Hvu|].
  specialize (IH Hin). unfold Array_includes in IH.
  apply existsb_exists in IH as (w & Hw & Hvw).
  apply existsb_exists. exists w. split; [|exact Hvw].
  apply filter_In. split; [exact Hw|]. apply negb_true_iff.
  destruct (SameValueZero u w) eqn:Huw; [|reflexivity].
  rewrite <- Hvu. symmetry.
  apply SameValueZero_trans with w; [exact Hvw|].
  now rewrite SameValueZero_sym.
Qed.

Lemma isOptionalLevels_truthy v :
  isOptionalLevels v = true -> v <> JUndefined -> ToBoolean v = true.
Proof. destruct v; simpl; try discriminate; congruence. Qed.

(** C4: for a table whose head has the shape of the schema,
    [getLevelOrder] returns [head.levels] as it is when it is present,
    whatever the body holds; otherwise [head.level_order] as it is when it
    is present; otherwise the distinct [level] values of the body in the
    order in which they are first seen: values of the body, in its order,
    no two of them the same, every number or string [level] of the body
    among them.  A number and a string are never the same level. *)
Theorem getLevelOrder_levels_then_level_order_then_body (t : BMSTable) :
  isHeader (JObject (head t)) = true ->
  (field (head t) "levels" <> JUndefined ->
     getLevelOrder t = field (head t) "levels") /\
  (field (head t) "levels" = JUndefined ->
   field (head t) "level_order" <> JUndefined ->
     getLevelOrder t = field (head t) "level_order") /\
  (field (head t) "levels" = JUndefined ->
   field (head t) "level_order" = JUndefined ->
     getLevelOrder t = JArray (distinctFirstSeen (map levelOf (body t))) /\
     sublist (distinctFirstSeen (map levelOf (body t))) (map levelOf (body t)) /\
     pairwiseDistinct (distinctFirstSeen (map levelOf (body t))) /\
     (forall chart : gmap (list N) JSValue,
        chart ∈ body t ->
        isNumberOrString (levelOf chart) = true ->
        Array_includes (distinctFirstSeen (map levelOf (body t)))
                       (levelOf chart) = true)) /\
  (forall n s, SameValueZero (JNumber n) (JString s) = false).
Proof.
  intros Hhead. cbn [isHeader] in Hhead.
  rewrite !andb_true_iff in Hhead.
  destruct Hhead as [[[_ _] Hlevels] Horder].
  unfold getLevelOrder. split; [|split; [|split]].
  - intros Hset. now rewrite (isOptionalLevels_truthy _ Hlevels Hset).
  - intros -> Hset. cbn [ToBoolean].
    now rewrite (isOptionalLevels_truthy _ Horder Hset).
  - intros -> ->. cbn [ToBoolean]. rewrite sniffLevel_distinctFirstSeen.
    split; [reflexivity|]. split; [apply distinctFirstSeen_sublist|].
    split; [apply distinctFirstSeen_pairwiseDistinct|].
    intros chart Hin Hlevel. apply distinctFirstSeen_includes.
    + apply in_map. now apply list_elem_of_In.
    + destruct (levelOf chart); try discriminate; reflexivity.
  - apply SameValueZero_number_string.
Qed.

(** The sample body has the levels ["1"], [1], ["1"]; a declared order wins
    over them. *)
Lemma getLevelOrder_levels_then_level_order_then_body_witness :
  getLevelOrder sample_table = JArray [JString (js "1"); JNumber (num 1)] /\
  getLevelOrder table_with_levels = JArray [JString (js "x")].
Proof.
  split.
  - destruct (getLevelOrder_levels_then_level_order_then_body sample_table)
      as (_ & _ & Hbody & _); [reflexivity|].
    destruct Hbody as [-> _]; reflexivity.
  - destruct (getLevelOrder_levels_then_level_order_then_body table_with_levels)
      as (Hlevels & _); [reflexivity|].
    rewrite Hlevels; [reflexivity | discriminate].
Defined.

(** C10: a head whose [levels] is the empty sequence makes [getLevelOrder]
    return that empty sequence, whatever [level_order] and the body hold:
    the test is on the field being set, and an empty array is set. *)
Theorem getLevelOrder_empty_levels
    (h : gmap (list N) JSValue) (entries : list (gmap (list N) JSValue)) :
  getLevelOrder (mkBMSTable (<[js "levels" := JArray []]> h) entries)
    = JArray [] /\
  getLevelOrder
    (mkBMSTable (<[js "levels" := JArray []]>
                   (<[js "level_order" := JArray [JString (js "1")]]> h))
                (entry_md5 :: entries))
    = JArray [].
Proof.
  unfold getLevelOrder, field. cbn [head].
  rewrite !lookup_insert_eq. split; reflexivity.
Qed.

(** ** The pointer extractor *)

Lemma startsWith_spec s p : startsWith s p = true <-> exists rest, s = p ++ rest.
Proof.
  revert s. induction p as [|c p IH]; intros s; simpl.
  - split; eauto.
  - destruct s as [|d s]; [split; [discriminate | intros (r & [=])]|].
    unfold codeunit_eqb. rewrite andb_true_iff, N.eqb_eq, IH. split.
    + intros [-> (rest & ->)]. eauto.
    + intros (rest & [= -> ->]). eauto.
Qed.

Lemma startsWith_app p rest : startsWith (p ++ rest) p = true.
Proof. apply startsWith_spec. eauto. Qed.

Lemma includes_spec s needle :
  includes s needle = true <-> exists a b, s = a ++ needle ++ b.
Proof.
  induction s as [|c s IH]; cbn [includes]; rewrite orb_true_iff, startsWith_spec.
  - split.
    + intros [(rest & ->) | [=]]. exists [], rest. reflexivity.
    + intros (a & b & H). left. destruct a as [|x a]; [|discriminate].
      exists b. exact H.
  - rewrite IH. split.
    + intros [(rest & ->) | (a & b & ->)].
      * exists [], rest. reflexivity.
      * exists (c :: a), b. reflexivity.
    + intros (a & b & H). destruct a as [|x a].
      * left. exists b. exact H.
      * right. injection H as -> ->. eauto.
Qed.

Lemma match_chars_Some s k input m :
  match_chars s k input = Some m <->
  exists rest, input = s ++ rest /\ k rest = Some m.
Proof.
  unfold match_chars. destruct (startsWith input s) eqn:E.
  - apply startsWith_spec in E as (rest & ->).
    rewrite drop_app_length. split; [eauto|].
    intros (rest' & H & Hk). apply app_inv_head in H as <-. exact Hk.
  - split; [discriminate|]. intros (rest & -> & _).
    now rewrite startsWith_app in E.
Qed.

(** A greedy run before a continuation that cannot start inside the run. *)
Lemma match_greedy_star_Some cls k input m :
  (forall c rest, cls c = true -> k (c :: rest) = None) ->
  match_greedy_star cls k input = Some m <->
  exists run rest, input = run ++ rest /\ forallb cls run = true /\ k rest = Some m.
Proof.
  intros Hk. split.
  - induction input as [|c input IH]; cbn [match_greedy_star].
    + intros H. exists [], []. auto.
    + destruct (cls c) eqn:Hc.
      * destruct (match_greedy_star cls k input) as [m'|] eqn:E.
        -- intros [= ->]. destruct (IH eq_refl) as (run & rest & -> & Hrun & Hrest).
           exists (c :: run), rest. cbn. rewrite Hc. auto.
        -- rewrite Hk by exact Hc. discriminate.
      * intros H. exists [], (c :: input). auto.
  - intros (run & rest & -> & Hrun & Hrest).
    induction run as [|c run IH]; cbn [app].
    + destruct rest as [|c rest]; cbn [match_greedy_star]; [exact Hrest|].
      destruct (cls c) eqn:Hc; [|exact Hrest].
      rewrite Hk in Hrest by exact Hc. discriminate.
    + cbn [forallb] in Hrun. apply andb_true_iff in Hrun as [Hc Hrun].
      cbn [match_greedy_star]. rewrite Hc, (IH Hrun). reflexivity.
Qed.

Lemma match_plus_Some cls k input m :
  (forall c rest, cls c = true -> k (c :: rest) = None) ->
  match_plus cls k input = Some m <->
  exists run rest,
    input = run ++ rest /\ run <> [] /\ forallb cls run = true /\
    k rest = Some m.
Proof.
  intros Hk. unfold match_plus. split.
  - destruct input as [|c input]; [discriminate|].
    destruct (cls c) eqn:Hc; [|discriminate].
    intros H. apply (match_greedy_star_Some _ _ _ _ Hk) in H
      as (run & rest & -> & Hrun & Hrest).
    exists (c :: run), rest. cbn. rewrite Hc. auto.
  - intros ([|c run] & rest & -> & Hne & Hrun & Hrest); [contradiction|].
    cbn [forallb] in Hrun. apply andb_true_iff in Hrun as [Hc Hrun].
    cbn [app]. rewrite Hc. apply (match_greedy_star_Some _ _ _ _ Hk). eauto.
Qed.

(** A lazy run stops at the first place where the continuation succeeds. *)
Lemma match_lazy_star_Some cls k input m :
  match_lazy_star cls k input = Some m <->
  exists run rest,
    input = run ++ rest /\ forallb cls run = true /\ k rest = Some m /\
    forall run1 run2, run = run1 ++ run2 -> run2 <> [] ->
                      k (run2 ++ rest) = None.
Proof.
  split.
  - induction input as [|c input IH]; cbn [match_lazy_star].
    + destruct (k []) as [m'|] eqn:E; [|discriminate].
      intros [= ->]. exists [], []. repeat split; auto.
      intros run1 run2 H Hne. destruct run1, run2; try discriminate.
      contradiction.
    + destruct (k (c :: input)) as [m'|] eqn:E.
      * intros [= ->]. exists [], (c :: input). repeat split; auto.
        intros run1 run2 H Hne. destruct run1, run2; try discriminate.
        contradiction.
      * destruct (cls c) eqn:Hc; [|discriminate].
        intros H. destruct (IH H) as (run & rest & -> & Hrun & Hrest & Hmin).
        exists (c :: run), rest. cbn. rewrite Hc. repeat split; auto.
        intros run1 run2 Hsplit Hne. destruct run1 as [|x run1].
        -- cbn in Hsplit. subst run2. exact E.
        -- injection Hsplit as -> ->. now apply Hmin with run1.
  - intros (run & rest & -> & Hrun & Hrest & Hmin).
    induction run as [|c run IH]; cbn [app].
    + destruct rest; cbn [match_lazy_star]; now rewrite Hrest.
    + cbn [forallb] in Hrun. apply andb_true_iff in Hrun as [Hc Hrun].
      cbn [match_lazy_star].
      pose proof (Hmin [] (c :: run) eq_refl ltac:(discriminate)) as Hhere.
      cbn [app] in Hhere. rewrite Hhere, Hc. apply IH; [exact Hrun|].
      intros run1 run2 -> Hne. now apply (Hmin (c :: run1) run2).
Qed.

(** The capture group and the closing quote: the value runs to the first
    quote, and holds no line terminator. *)
Lemma match_value_Some input : forall captured r,
  match_group_lazy_star dot
    (fun captured => match_nodes [r_chars dquote] (Some captured))
    captured input = Some r <->
  exists v rest,
    input = v ++ dquote ++ rest /\ forallb dot v = true /\
    forallb notQuote v = true /\ r = Some (captured ++ v).
Proof.
  induction input as [|c input IH]; intros captured r;
    cbn [match_group_lazy_star match_nodes].
  - unfold match_chars. cbn. split; [discriminate|].
    intros (v & rest & H & _). destruct v; discriminate.
  - unfold match_chars at 1. cbn [startsWith dquote]. unfold codeunit_eqb.
    rewrite andb_true_r.
    destruct (N.eqb c 0x22) eqn:Hq.
    + apply N.eqb_eq in Hq as ->. cbn [length drop]. split.
      * intros [= <-]. exists [], input. rewrite app_nil_r. auto.
      * intros (v & rest & H & _ & Hv & ->). destruct v as [|x v].
        -- now rewrite app_nil_r.
        -- injection H as <- _. discriminate.
    + destruct (dot c) eqn:Hd.
      * rewrite IH. split.
        -- intros (v & rest & -> & Hdot & Hnq & ->).
           exists (c :: v), rest. cbn. unfold notQuote at 1.
           rewrite Hd, Hq, <- app_assoc. auto.
        -- intros (v & rest & H & Hdot & Hnq & ->). destruct v as [|x v].
           ++ injection H as -> _. discriminate.
           ++ injection H as <- ->. cbn in Hdot, Hnq.
              apply andb_true_iff in Hdot as [_ Hdot].
              apply andb_true_iff in Hnq as [_ Hnq].
              exists v, rest. rewrite <- app_assoc. auto.
      * split; [discriminate|].
        intros (v & rest & H & Hdot & _). destruct v as [|x v].
        -- injection H as -> _. discriminate.
        -- injection H as <- _. cbn in Hdot. now rewrite Hd in Hdot.
Qed.

(** Up to the first quote of a text that has one. *)
Lemma first_quote b rest :
  exists v b' , b ++ dquote ++ rest = v ++ dquote ++ b' /\
                forallb notQuote v = true /\ exists tail, b = v ++ tail.
Proof.
  induction b as [|c b (v & b' & H & Hv & tail & Htail)].
  - exists [], rest. repeat split. exists []. reflexivity.
  - destruct (N.eqb c 0x22) eqn:Hq.
    + apply N.eqb_eq in Hq as ->.
      exists [], (b ++ dquote ++ rest). repeat split. exists (34%N :: b).
      reflexivity.
    + exists (c :: v), b'. cbn [app forallb]. rewrite H.
      unfold notQuote at 1. rewrite Hq.
      repeat split; [exact Hv|]. exists tail. now rewrite Htail.
Qed.

Lemma match_value_after_run b rest :
  forallb dot b = true ->
  exists r,
    match_nodes [r_group_lazy_star dot; r_chars dquote] None
                (b ++ dquote ++ rest) = Some r.
Proof.
  intros Hb. destruct (first_quote b rest) as (v & b' & H & Hv & tail & ->).
  rewrite forallb_app in Hb. apply andb_true_iff in Hb as [Hdot _].
  exists (Some v). cbn [match_nodes]. apply match_value_Some.
  exists v, b'. auto.
Qed.

Lemma whitespace_not_n c rest k :
  isWhiteSpace c = true -> match_chars marker k (c :: rest) = None.
Proof.
  intros Hc. unfold match_chars.
  destruct (startsWith (c :: rest) marker) eqn:E; [|reflexivity].
  apply startsWith_spec in E as (r & E). injection E as -> _.
  discriminate.
Qed.

Lemma dot_equals : dot 61%N = true.
Proof. reflexivity. Qed.

(** The first [openValue] after the marker decides: when the value that
    follows it has no closing quote on the line, no later one has. *)
Lemma minimal_iff_not_included mid v rest :
  forallb dot mid = true ->
  (forall run1 run2, mid = run1 ++ run2 -> run2 <> [] ->
     match_chars openValue
       (match_nodes [r_group_lazy_star dot; r_chars dquote] None)
       (run2 ++ openValue ++ v ++ dquote ++ rest) = None)
  <-> includes mid openValue = false.
Proof.
  intros Hmid. split.
  - intros Hmin. destruct (includes mid openValue) eqn:E; [|reflexivity].
    apply includes_spec in E as (a & b & ->).
    specialize (Hmin a (openValue ++ b) eq_refl).
    rewrite !forallb_app in Hmid.
    apply andb_true_iff in Hmid as [_ Hmid].
    apply andb_true_iff in Hmid as [_ Hb].
    destruct (match_value_after_run (b ++ js "=") (v ++ dquote ++ rest))
      as (r & Hr).
    { rewrite forallb_app, Hb. reflexivity. }
    assert (match_chars openValue
              (match_nodes [r_group_lazy_star dot; r_chars dquote] None)
              ((openValue ++ b) ++ openValue ++ v ++ dquote ++ rest) = Some r)
      as Hsome.
    { apply match_chars_Some. exists (b ++ openValue ++ v ++ dquote ++ rest).
      split; [now rewrite <- app_assoc|].
      rewrite <- Hr. f_equal. unfold openValue. now rewrite <- !app_assoc. }
    rewrite Hmin in Hsome; [discriminate|]. discriminate.
  - intros Hnot run1 run2 -> Hne.
    destruct (match_chars openValue _ _) as [r|] eqn:E; [|reflexivity].
    apply match_chars_Some in E as (rest' & E & _).
    assert (includes (run1 ++ run2) openValue = true) as Hinc;
      [|congruence].
    apply includes_spec.
    destruct run2 as [|x [|y run2]]; [contradiction| |].
    + cbn in E. injection E as -> E. discriminate.
    + cbn in E. injection E as -> -> _.
      exists run1, run2. reflexivity.
Qed.

Lemma match_nodes_bmstable input r :
  match_nodes bmstable_regex None input = Some r <->
  exists v, r = Some v /\ pointerAt input v.
Proof.
  change (match_nodes bmstable_regex None input) with
    (match_chars (js "<meta")
       (match_plus isWhiteSpace
          (match_chars marker
             (match_lazy_star dot
                (match_chars openValue
                   (match_nodes [r_group_lazy_star dot; r_chars dquote] None)))))
       input).
  rewrite match_chars_Some. split.
  - intros (r1 & -> & H).
    apply match_plus_Some in H as (ws & r2 & -> & Hne & Hws & H);
      [|intros; now apply whitespace_not_n].
    apply match_chars_Some in H as (r3 & -> & H).
    apply match_lazy_star_Some in H as (mid & r4 & -> & Hmid & H & Hmin).
    apply match_chars_Some in H as (r5 & -> & H).
    cbn [match_nodes] in H.
    apply match_value_Some in H as (v & rest & -> & Hdot & Hnq & ->).
    exists v. split; [reflexivity|]. exists ws, mid, rest.
    repeat split; try assumption.
    now apply (minimal_iff_not_included mid v rest Hmid).
  - intros (v & -> & ws & mid & rest & -> & Hne & Hws & Hmid & Hinc & Hdot & Hnq).
    eexists. split; [reflexivity|].
    apply match_plus_Some; [intros; now apply whitespace_not_n|].
    exists ws. eexists.
    split; [reflexivity|]. split; [assumption|]. split; [assumption|].
    apply match_chars_Some. eexists. split; [reflexivity|].
    apply match_lazy_star_Some. exists mid. eexists.
    split; [reflexivity|]. split; [assumption|]. split.
    + apply match_chars_Some. eexists. split; [reflexivity|].
      cbn [match_nodes]. apply match_value_Some. exists v, rest. auto.
    + now apply (minimal_iff_not_included mid v rest Hmid).
Qed.

(** [exec] finds the leftmost place with a match. *)
Lemma exec_Some nodes input r :
  exec nodes input = Some r <->
  exists before here,
    input = before ++ here /\ match_nodes nodes None here = Some r /\
    forall before' here',
      input = before' ++ here' -> (length before' < length before)%nat ->
      match_nodes nodes None here' = None.
Proof.
  split.
  - induction input as [|c input IH]; cbn [exec].
    + destruct (match_nodes nodes None []) as [m|] eqn:E; [|discriminate].
      intros [= ->]. exists [], []. repeat split; auto. cbn. lia.
    + destruct (match_nodes nodes None (c :: input)) as [m|] eqn:E.
      * intros [= ->]. exists [], (c :: input). repeat split; auto. cbn. lia.
      * intros H. destruct (IH H) as (before & here & -> & Hm & Hmin).
        exists (c :: before), here. repeat split; auto.
        intros [|x before'] here' Hsplit Hlen.
        -- cbn in Hsplit. now subst here'.
        -- injection Hsplit as <- Hsplit. apply (Hmin before'); [exact Hsplit|].
           cbn in Hlen. lia.
  - intros (before & here & -> & Hm & Hmin).
    induction before as [|c before IH]; cbn [app].
    + destruct here; cbn [exec]; now rewrite Hm.
    + cbn [exec]. rewrite (Hmin [] (c :: before ++ here) eq_refl) by (cbn; lia).
      apply IH. intros before' here' Hsplit Hlen.
      apply (Hmin (c :: before')); [cbn [app]; now f_equal | cbn; lia].
Qed.

Lemma exec_None nodes input :
  exec nodes input = None <->
  forall before here, input = before ++ here ->
                      match_nodes nodes None here = None.
Proof.
  split.
  - induction input as [|c input IH]; cbn [exec].
    + destruct (match_nodes nodes None []) eqn:E; [discriminate|].
      intros _ before here H. destruct before, here; try discriminate. exact E.
    + destruct (match_nodes nodes None (c :: input)) eqn:E; [discriminate|].
      intros H [|x before] here Hsplit.
      * cbn in Hsplit. now subst here.
      * injection Hsplit as <- Hsplit. now apply (IH H before).
  - intros H. induction input as [|c input IH]; cbn [exec].
    + now rewrite (H [] [] eq_refl).
    + rewrite (H [] (c :: input) eq_refl). apply IH.
      intros before here ->. now apply (H (c :: before)).
Qed.

Lemma match_nodes_bmstable_None input :
  match_nodes bmstable_regex None input = None <->
  forall v, ~ pointerAt input v.
Proof.
  destruct (match_nodes bmstable_regex None input) as [r|] eqn:E.
  - apply match_nodes_bmstable in E as (v & _ & Hv).
    split; [discriminate|]. intros H. now destruct (H v).
  - split; [|reflexivity]. intros _ v Hv.
    assert (match_nodes bmstable_regex None input = Some (Some v)) as E'
      by (apply match_nodes_bmstable; eauto).
    congruence.
Qed.

Lemma ReadMetaTag_exec html v :
  ReadMetaTag html = Some v <-> exec bmstable_regex html = Some (Some v).
Proof.
  unfold ReadMetaTag. destruct (exec bmstable_regex html) as [r|] eqn:E.
  - apply exec_Some in E as (before & here & _ & E & _).
    apply match_nodes_bmstable in E as (v' & -> & _).
    split; intros [= ->]; reflexivity.
  - split; discriminate.
Qed.

(** C9, as stated, fails: a value on the line after the marker is not
    found, and the load ends with the error about the missing tag; and a
    first marker with nothing after it on its line is passed over for a
    later one. *)
Lemma ReadMetaTag_stops_at_the_end_of_the_line :
  firstQuotedValueAfterFirstMarker multiline_text = Some (js "head.json") /\
  ReadMetaTag multiline_text = None /\
  LoadBMSTable sample_platform multiline_url []
    = (Throw (NoBmstableTag multiline_url), [multiline_url; multiline_url]) /\
  firstQuotedValueAfterFirstMarker two_markers_text = Some (js "bmstable") /\
  ReadMetaTag two_markers_text = Some (js "second.json").
Proof. repeat split; vm_compute; reflexivity. Qed.

(** C9, as amended: [ReadMetaTag] returns the value of the leftmost place
    where the text reads [<meta], white space, [name="bmstable"] and then,
    before the line ends, a first equals sign with a quote, the value and
    its closing quote, whatever the attribute before the equals sign is;
    places further right are not looked at; when the text has no such place
    it returns nothing, and a page in which it returns nothing, or an empty
    value, makes [LoadBMSTable] throw the error about the missing tag, which
    carries the URL. *)
Theorem ReadMetaTag_leftmost_pointer (html : list N) :
  (forall v, ReadMetaTag html = Some v <-> leftmostPointer html v) /\
  (ReadMetaTag html = None <->
     forall before input v, html = before ++ input -> ~ pointerAt input v) /\
  (forall (P : Platform) (url : list N) (log log1 : list (list N))
          (firstRes : Response),
     FetchWithRetry P url default_retryCount log = (Ok firstRes, log1) ->
     IsHTMLOrJSON firstRes (text firstRes) = doc_html ->
     text firstRes = html ->
     ReadMetaTag html = None \/ ReadMetaTag html = Some [] ->
     LoadBMSTable P url log = (Throw (NoBmstableTag url), log1)).
Proof.
  split; [|split].
  - intros v. rewrite ReadMetaTag_exec, exec_Some. unfold leftmostPointer.
    split.
    + intros (before & here & -> & Hm & Hmin).
      apply match_nodes_bmstable in Hm as (v' & [= <-] & Hv).
      exists before, here. repeat split; [exact Hv|].
      intros before' here' v' Hsplit Hlen.
      now apply match_nodes_bmstable_None, (Hmin before').
    + intros (before & here & -> & Hv & Hmin).
      exists before, here. repeat split.
      * apply match_nodes_bmstable. eauto.
      * intros before' here' Hsplit Hlen. apply match_nodes_bmstable_None.
        intros v'. now apply (Hmin before').
  - assert (ReadMetaTag html = None <-> exec bmstable_regex html = None) as ->.
    { destruct (ReadMetaTag html) as [v|] eqn:E.
      - apply ReadMetaTag_exec in E. split; congruence.
      - unfold ReadMetaTag in E.
        destruct (exec bmstable_regex html) as [r|] eqn:E'; [|tauto].
        apply exec_Some in E' as (before & here & _ & E' & _).
        apply match_nodes_bmstable in E' as (v' & -> & _). discriminate. }
    rewrite exec_None. split.
    + intros H before input v Hsplit.
      now apply match_nodes_bmstable_None, (H before).
    + intros H before here Hsplit. apply match_nodes_bmstable_None.
      intros v. now apply (H before here).
  - intros P url log log1 firstRes Hfetch Htype <- Htag.
    now apply LoadBMSTable_no_pointer with firstRes.
Qed.

Lemma ReadMetaTag_leftmost_pointer_witness :
  leftmostPointer wrapper_text (js "head.json") /\
  leftmostPointer two_markers_text (js "second.json") /\
  LoadBMSTable sample_platform multiline_url []
    = (Throw (NoBmstableTag multiline_url), [multiline_url; multiline_url]).
Proof.
  split; [|split].
  - apply (ReadMetaTag_leftmost_pointer wrapper_text). reflexivity.
  - apply (ReadMetaTag_leftmost_pointer two_markers_text). reflexivity.
  - destruct (ReadMetaTag_leftmost_pointer multiline_text) as (_ & _ & Hload).
    apply (Hload sample_platform multiline_url []
                 [multiline_url; multiline_url]
                 (mkResponse 200 (Some (js "text/html")) multiline_text)).
    + reflexivity.
    + reflexivity.
    + reflexivity.
    + left. reflexivity.
Defined.

(** * Further properties of the loader *)

(** ** The format sniffer (lines 249-272) *)

Lemma trimStart_split s :
  exists ws, s = ws ++ trimStart s /\ forallb isWhiteSpace ws = true.
Proof.
  induction s as [|c s (ws & Hs & Hws)]; [exists []; auto|].
  cbn [trimStart]. destruct (isWhiteSpace c) eqn:Hc.
  - exists (c :: ws). cbn. rewrite Hc, <- Hs. auto.
  - exists []. auto.
Qed.

Lemma trimStart_after_whitespace ws c rest :
  forallb isWhiteSpace ws = true -> isWhiteSpace c = false ->
  trimStart (ws ++ c :: rest) = c :: rest.
Proof.
  intros Hws Hc. induction ws as [|w ws IH]; cbn [app trimStart].
  - now rewrite Hc.
  - cbn in Hws. apply andb_true_iff in Hws as [-> Hws]. auto.
Qed.

(** X1: [IsHTMLOrJSON] answers [json] in two cases only: the response has a
    non-empty [Content-Type] that contains [application/json], whatever the
    text is; or it has no [Content-Type] (or an empty one) and the first
    character of the text after its leading white space is an opening brace.
    So a declared type always wins over the text, and an undeclared document
    that starts with anything else, a JSON array included, is taken for
    HTML. *)
Theorem IsHTMLOrJSON_json_iff (res : Response) (resText : list N) :
  IsHTMLOrJSON res resText = doc_json <->
  (exists declared, contentType res = Some declared /\ declared <> [] /\
     includes declared (js "application/json") = true) \/
  ((contentType res = None \/ contentType res = Some []) /\
   exists ws rest,
     resText = ws ++ 0x7B%N :: rest /\ forallb isWhiteSpace ws = true).
Proof.
  unfold IsHTMLOrJSON.
  assert ((match trimStart resText with
           | [] => doc_html
           | firstChar :: _ =>
               if codeunit_eqb firstChar 0x7B%N then doc_json else doc_html
           end = doc_json) <->
          exists ws rest,
            resText = ws ++ 0x7B%N :: rest /\ forallb isWhiteSpace ws = true)
    as Htext.
  { split.
    - destruct (trimStart_split resText) as (ws & Hs & Hws).
      destruct (trimStart resText) as [|c rest]; [discriminate|].
      unfold codeunit_eqb. destruct (N.eqb c 0x7B) eqn:Hc; [|discriminate].
      apply N.eqb_eq in Hc as ->. intros _. eauto.
    - intros (ws & rest & -> & Hws).
      now rewrite trimStart_after_whitespace. }
  destruct (contentType res) as [[|c declared]|].
  - rewrite Htext. split.
    + intros H. right. split; [now right | exact H].
    + intros [(d & [= <-] & Hne & _) | [_ H]]; [contradiction | exact H].
  - split.
    + destruct (includes (c :: declared) (js "application/json")) eqn:E;
        [|discriminate].
      intros _. left. exists (c :: declared). repeat split; [discriminate|exact E].
    + intros [(d & [= <-] & _ & ->) | [[H | H] _]];
        [reflexivity | discriminate..].
  - rewrite Htext. split.
    + intros H. right. split; [now left | exact H].
    + intros [(d & [=] & _) | [_ H]]. exact H.
Qed.

(** ** The retrying fetcher (lines 303-324) *)

Section MoreFetchFacts.
Variable P : Platform.
Variable url : list N.

(** A request that is rejected ends the loop at once. *)
Lemma FetchWithRetry_loop_rejected remaining :
  forall k lastRes log reason,
    (k < remaining)%nat ->
    (forall i, (i < k)%nat -> answersNot200 (attempt P url log i)) ->
    attempt P url log k = Rejects reason ->
    FetchWithRetry_loop P url remaining lastRes log
      = (Throw (FetchRejected url reason), log ++ replicate (S k) url).
Proof.
  induction remaining as [|remaining IH];
    intros k lastRes log reason Hk Hbefore Hrej; [lia|].
  rewrite FetchWithRetry_loop_S. destruct k as [|k].
  - rewrite attempt_0 in Hrej. now rewrite Hrej.
  - destruct (Hbefore 0%nat ltac:(lia)) as (r & Hr & Hne).
    rewrite attempt_0 in Hr. rewrite Hr.
    apply Z.eqb_neq in Hne. rewrite Hne.
    rewrite (IH k (Some r) (log ++ [url]) reason).
    + now rewrite replicate_S_log.
    + lia.
    + intros i Hi. rewrite attempt_S. apply Hbefore. lia.
    + now rewrite attempt_S.
Qed.

(** With a turn left, or a response already seen, the loop makes at least
    the requests it needs and throws nothing but what it saw. *)
Lemma FetchWithRetry_loop_throws remaining :
  forall lastRes log e log',
    FetchWithRetry_loop P url remaining lastRes log = (Throw e, log') ->
    (remaining = 0%nat /\ lastRes = None /\ e = ZeroRetries url) \/
    (exists res, e = FetchFailed url (status res) /\
                 (lastRes = Some res \/ status res <> 200)) \/
    (exists reason, e = FetchRejected url reason).
Proof.
  induction remaining as [|remaining IH]; intros lastRes log e log'.
  - simpl. destruct lastRes as [res|]; intros [= <- _]; eauto 6.
  - rewrite FetchWithRetry_loop_S.
    destruct (network P log url) as [r|reason]; [|intros [= <- _]; eauto].
    destruct (status r =? 200) eqn:E; [discriminate|].
    intros H. apply IH in H as [(_ & [=] & _) | [(res & -> & Hres) | Hrej]].
    + right. left. exists res. split; [reflexivity|]. right.
      destruct Hres as [[= <-] | Hres]; [now apply Z.eqb_neq | exact Hres].
    + auto.
Qed.

Lemma FetchWithRetry_loop_count remaining :
  forall lastRes log,
    exists n, (n <= remaining)%nat /\ (remaining <> 0 -> 1 <= n)%nat /\
      snd (FetchWithRetry_loop P url remaining lastRes log)
        = log ++ replicate n url.
Proof.
  induction remaining as [|remaining IH]; intros lastRes log.
  - exists 0%nat. repeat split; [lia..|]. simpl. rewrite app_nil_r.
    destruct lastRes; reflexivity.
  - rewrite FetchWithRetry_loop_S.
    destruct (network P log url) as [res|reason].
    + destruct (status res =? 200).
      * exists 1%nat. repeat split; lia || reflexivity.
      * destruct (IH (Some res) (log ++ [url])) as (n & Hn & _ & ->).
        exists (S n). repeat split; [lia..|]. apply replicate_S_log.
    + exists 1%nat. repeat split; lia || reflexivity.
Qed.
End MoreFetchFacts.

(** X2: a request that is rejected (no response at all) is never retried:
    after attempts answered with other statuses, the first rejected attempt
    ends [FetchWithRetry] with that rejection, with no request after it, even
    when the bound leaves turns. *)
Theorem FetchWithRetry_rejection_is_not_retried
    (P : Platform) (url : list N) (log : list (list N))
    (retryCount : Z) (k : nat) (reason : list N) :
  Z.of_nat k < retryCount ->
  (forall i, (i < k)%nat -> answersNot200 (attempt P url log i)) ->
  attempt P url log k = Rejects reason ->
  FetchWithRetry P url retryCount log
    = (Throw (FetchRejected url reason), log ++ replicate (S k) url).
Proof.
  intros Hk Hbefore Hrej. apply FetchWithRetry_loop_rejected; try assumption.
  lia.
Qed.

Lemma FetchWithRetry_rejection_is_not_retried_witness :
  FetchWithRetry offline_platform table_url 3 []
    = (Throw (FetchRejected table_url (js "ECONNREFUSED")), [table_url]).
Proof.
  apply (FetchWithRetry_rejection_is_not_retried
           offline_platform table_url [] 3 0 (js "ECONNREFUSED")).
  - lia.
  - intros i Hi. lia.
  - reflexivity.
Defined.

(** X3: [FetchWithRetry] requests nothing but [url], at most [retryCount]
    times and, when the bound is positive, at least once; with a bound of
    zero or less it requests nothing and throws the error about 0
    retries. *)
Theorem FetchWithRetry_request_count
    (P : Platform) (url : list N) (log : list (list N)) (retryCount : Z) :
  (exists n,
     Z.of_nat n <= Z.max 0 retryCount /\
     (0 < retryCount -> (1 <= n)%nat) /\
     snd (FetchWithRetry P url retryCount log) = log ++ replicate n url) /\
  (retryCount <= 0 ->
     FetchWithRetry P url retryCount log = (Throw (ZeroRetries url), log)).
Proof.
  split.
  - destruct (FetchWithRetry_loop_count P url (Z.to_nat retryCount) None log)
      as (n & Hn & Hpos & Hlog).
    exists n. repeat split; [lia | intros; apply Hpos; lia | exact Hlog].
  - intros Hle. unfold FetchWithRetry.
    replace (Z.to_nat retryCount) with 0%nat by lia. reflexivity.
Qed.

Lemma FetchWithRetry_request_count_witness :
  FetchWithRetry sample_platform table_url (-1) []
    = (Throw (ZeroRetries table_url), []).
Proof.
  apply (FetchWithRetry_request_count sample_platform table_url [] (-1)). lia.
Defined.

(** X4: with a positive bound [FetchWithRetry] throws one of two errors
    only: the rejection of a request, or the failure that carries the status
    of a response, and that status is never 200; the error about 0 retries
    cannot occur. *)
Theorem FetchWithRetry_errors
    (P : Platform) (url : list N) (log log' : list (list N))
    (retryCount : Z) (e : Error) :
  0 < retryCount ->
  FetchWithRetry P url retryCount log = (Throw e, log') ->
  (exists status, e = FetchFailed url status /\ status <> 200) \/
  (exists reason, e = FetchRejected url reason).
Proof.
  intros Hpos H. unfold FetchWithRetry in H.
  apply FetchWithRetry_loop_throws in H
    as [(H0 & _) | [(res & -> & [[=] | Hres]) | Hrej]].
  - lia.
  - left. eauto.
  - right. exact Hrej.
Qed.

Lemma FetchWithRetry_errors_witness :
  (exists status, FetchFailed table_url 500 = FetchFailed table_url status /\
                  status <> 200) \/
  (exists reason, FetchFailed table_url 500 = FetchRejected table_url reason).
Proof.
  apply (FetchWithRetry_errors failing_platform table_url []
           [table_url; table_url; table_url] 3).
  - lia.
  - reflexivity.
Defined.

(** ** The loader (lines 120-171) *)

Lemma bind_throw {A B} (m : IO A) (k : A -> IO B) log e log1 :
  m log = (Throw e, log1) -> bind m k log = (Throw e, log1).
Proof. unfold bind. now intros ->. Qed.

Lemma requestsBetween_ret {A} (a : A) : requestsBetween (ret a) 0 0.
Proof. intros log. exists []. cbn. rewrite app_nil_r. auto. Qed.

Lemma requestsBetween_throw {A} (e : Error) : requestsBetween (@throw A e) 0 0.
Proof. intros log. exists []. cbn. rewrite app_nil_r. auto. Qed.

Lemma requestsBetween_weaken {A} (m : IO A) lo hi lo' hi' :
  requestsBetween m lo hi -> (lo' <= lo)%nat -> (hi <= hi')%nat ->
  requestsBetween m lo' hi'.
Proof.
  intros H Hlo Hhi log. destruct (H log) as (requests & Hlog & H1 & H2).
  exists requests. repeat split; [exact Hlog | lia..].
Qed.

Lemma requestsBetween_bind {A B} (m : IO A) (k : A -> IO B) lo hi hi' :
  requestsBetween m lo hi -> (forall a, requestsBetween (k a) 0 hi') ->
  requestsBetween (bind m k) lo (hi + hi').
Proof.
  intros Hm Hk log. destruct (Hm log) as (requests & Hlog & H1 & H2).
  unfold bind. destruct (m log) as [[a|e] log1]; cbn [snd] in Hlog; subst log1.
  - destruct (Hk a (log ++ requests)) as (requests' & Hlog' & _ & H2').
    exists (requests ++ requests'). rewrite Hlog', <- app_assoc, length_app.
    repeat split; lia.
  - exists requests. cbn [snd]. repeat split; lia.
Qed.

Lemma requestsBetween_FetchWithRetry P url :
  requestsBetween (FetchWithRetry P url default_retryCount) 1 3.
Proof.
  intros log.
  destruct (FetchWithRetry_loop_count P url 3 None log) as (n & Hn & Hpos & Hlog).
  exists (replicate n url). rewrite length_replicate.
  repeat split; [exact Hlog | apply Hpos; lia | exact Hn].
Qed.

Lemma requestsBetween_new_URL P input base :
  requestsBetween (new_URL P input base) 0 0.
Proof.
  unfold new_URL. destruct (URL_href P input base);
    [apply requestsBetween_ret | apply requestsBetween_throw].
Qed.

Lemma requestsBetween_header P url :
  requestsBetween (LoadBMSTable_header P url) 1 6.
Proof.
  unfold LoadBMSTable_header.
  apply (requestsBetween_bind _ _ 1 3 3); [apply requestsBetween_FetchWithRetry|].
  intros firstRes. cbn zeta.
  destruct (IsHTMLOrJSON firstRes (text firstRes)).
  - destruct (ReadMetaTag (text firstRes)) as [[|c bmstable]|];
      try (apply requestsBetween_weaken with 0%nat 0%nat;
           [apply requestsBetween_throw | lia..]).
    apply (requestsBetween_bind _ _ 0 0 3); [apply requestsBetween_new_URL|].
    intros headerLocation.
    apply (requestsBetween_weaken _ 1 (3 + 0)); [|lia..].
    apply requestsBetween_bind; [apply requestsBetween_FetchWithRetry|].
    intros headerRes.
    destruct (BrokenBMSJSONParse P (text headerRes));
      [apply requestsBetween_throw | apply requestsBetween_ret].
  - apply requestsBetween_weaken with 0%nat 0%nat; [|lia..].
    destruct (BrokenBMSJSONParse P (text firstRes));
      [apply requestsBetween_throw | apply requestsBetween_ret].
Qed.

(** X5: a load makes at least one request and at most nine (three
    documents, three attempts each), and only adds to the log of requests:
    what was requested before it stays in place. *)
Theorem LoadBMSTable_makes_one_to_nine_requests
    (P : Platform) (url : list N) (log : list (list N)) :
  exists requests,
    snd (LoadBMSTable P url log) = log ++ requests /\
    (1 <= length requests)%nat /\ (length requests <= 9)%nat.
Proof.
  revert log. change (requestsBetween (LoadBMSTable P url) 1 9).
  unfold LoadBMSTable.
  apply (requestsBetween_bind _ _ 1 6 3); [apply requestsBetween_header|].
  intros [headerLocation headerJSON]. cbn [fst snd].
  assert (forall issues, requestsBetween (@throw BMSTable (InvalidHead issues)) 0 3)
    as Hthrow
    by (intros; apply requestsBetween_weaken with 0%nat 0%nat;
        [apply requestsBetween_throw | lia..]).
  destruct headerJSON; try apply Hthrow.
  destruct (safeParse HEAD_SCHEMA (JObject fields)); [|apply Hthrow].
  apply (requestsBetween_bind _ _ 0 0 3); [apply requestsBetween_new_URL|].
  intros bodyLocation.
  apply (requestsBetween_weaken _ 1 (3 + 0)); [|lia..].
  apply requestsBetween_bind; [apply requestsBetween_FetchWithRetry|].
  intros bodyRes.
  destruct (BrokenBMSJSONParse P (text bodyRes)); [apply requestsBetween_throw|].
  destruct (ExtractBMSBody j);
    [apply requestsBetween_ret | apply requestsBetween_throw].
Qed.

Lemma throwsOnly_ret {A} (a : A) ok : throwsOnly (ret a) ok.
Proof. intros log e log'. discriminate. Qed.

Lemma throwsOnly_throw {A} (e : Error) (ok : Error -> Prop) :
  ok e -> throwsOnly (@throw A e) ok.
Proof. intros H log e' log' [= <- _]. exact H. Qed.

Lemma throwsOnly_bind {A B} (m : IO A) (k : A -> IO B) ok :
  throwsOnly m ok -> (forall a, throwsOnly (k a) ok) ->
  throwsOnly (bind m k) ok.
Proof.
  intros Hm Hk log e log'. unfold bind.
  destruct (m log) as [[a|e0] log1] eqn:E.
  - apply Hk.
  - intros [= <- _]. now apply (Hm log e0 log1).
Qed.

Lemma throwsOnly_FetchWithRetry P url0 url :
  throwsOnly (FetchWithRetry P url0 default_retryCount) (errorOfLoad url).
Proof.
  intros log e log' H.
  destruct (FetchWithRetry_loop_throws P url0 _ _ _ _ _ H)
    as [([=] & _) | [(res & -> & [[=] | Hres]) | (reason & ->)]].
  - exact Hres.
  - exact I.
Qed.

Lemma throwsOnly_new_URL P input base url :
  throwsOnly (new_URL P input base) (errorOfLoad url).
Proof.
  unfold new_URL. destruct (URL_href P input base);
    [apply throwsOnly_ret | now apply throwsOnly_throw].
Qed.

Lemma throwsOnly_header P url :
  throwsOnly (LoadBMSTable_header P url) (errorOfLoad url).
Proof.
  unfold LoadBMSTable_header.
  apply throwsOnly_bind; [apply throwsOnly_FetchWithRetry|].
  intros firstRes. cbn zeta.
  destruct (IsHTMLOrJSON firstRes (text firstRes)).
  - destruct (ReadMetaTag (text firstRes)) as [[|c bmstable]|];
      try (now apply throwsOnly_throw).
    apply throwsOnly_bind; [apply throwsOnly_new_URL|]. intros headerLocation.
    apply throwsOnly_bind; [apply throwsOnly_FetchWithRetry|]. intros headerRes.
    destruct (BrokenBMSJSONParse P (text headerRes));
      [now apply throwsOnly_throw | apply throwsOnly_ret].
  - destruct (BrokenBMSJSONParse P (text firstRes));
      [now apply throwsOnly_throw | apply throwsOnly_ret].
Qed.

Lemma ExtractBMSBody_Throw rawData e :
  ExtractBMSBody rawData = Throw e ->
  Array_isArray rawData = false /\
  e = if ToString_throws rawData
      then CannotConvertToPrimitive rawData
      else InvalidBody (typeof rawData) rawData.
Proof.
  destruct rawData; cbn [ExtractBMSBody Array_isArray]; intros H;
    try discriminate; split; try reflexivity; congruence.
Qed.

(** X6: whatever error a load of [url] throws, the error about 0 retries is
    not it; an error about a failed fetch never carries status 200; the
    error about the missing tag carries [url] itself; the error about an
    invalid head carries at least one issue; and the error about an invalid
    body carries a value that is not an array, with its [typeof]. *)
Theorem LoadBMSTable_errors
    (P : Platform) (url : list N) (log log' : list (list N)) (e : Error) :
  LoadBMSTable P url log = (Throw e, log') -> errorOfLoad url e.
Proof.
  revert log e log'. change (throwsOnly (LoadBMSTable P url) (errorOfLoad url)).
  unfold LoadBMSTable.
  apply throwsOnly_bind; [apply throwsOnly_header|].
  intros [headerLocation headerJSON]. cbn [fst snd].
  destruct headerJSON;
    try (apply throwsOnly_throw; cbn; unfold safeParse, HEAD_SCHEMA, z_object;
         discriminate).
  destruct (safeParse HEAD_SCHEMA (JObject fields)) eqn:E;
    [|apply throwsOnly_throw; discriminate].
  apply throwsOnly_bind; [apply throwsOnly_new_URL|]. intros bodyLocation.
  apply throwsOnly_bind; [apply throwsOnly_FetchWithRetry|]. intros bodyRes.
  destruct (BrokenBMSJSONParse P (text bodyRes)) as [err|rawBodyJSON];
    [now apply throwsOnly_throw|].
  destruct (ExtractBMSBody rawBodyJSON) as [entries|e] eqn:Hbody;
    [apply throwsOnly_ret|].
  apply throwsOnly_throw.
  apply ExtractBMSBody_Throw in Hbody as [Hnot ->].
  destruct (ToString_throws rawBodyJSON); [exact I|].
  split; [exact Hnot | reflexivity].
Qed.

Lemma LoadBMSTable_errors_witness :
  errorOfLoad table_url (FetchFailed table_url 500) /\
  errorOfLoad other_head_url
    (InvalidHead [mkIssue invalid_type [p_key "data_url"]]) /\
  errorOfLoad multiline_url (NoBmstableTag multiline_url).
Proof.
  split; [|split].
  - apply (LoadBMSTable_errors failing_platform table_url []
             [table_url; table_url; table_url]).
    reflexivity.
  - apply (LoadBMSTable_errors sample_platform other_head_url []
             [other_head_url; other_head_url]).
    reflexivity.
  - apply (LoadBMSTable_errors sample_platform multiline_url []
             [multiline_url; multiline_url]).
    reflexivity.
Defined.

(** X7: where the header of a load comes from.  When the first response is
    taken for JSON, the header is decoded from that response and its location
    is [url] itself, with no further request; when it is taken for HTML, the
    pointer [ReadMetaTag] found is not empty, the location is the pointer
    resolved against [url], and the header is decoded from the document
    fetched there. *)
Theorem LoadBMSTable_header_location
    (P : Platform) (url : list N) (log log1 : list (list N))
    (headerLocation : list N) (headerJSON : JSValue) :
  LoadBMSTable_header P url log = (Ok (headerLocation, headerJSON), log1) ->
  exists firstRes log0,
    FetchWithRetry P url default_retryCount log = (Ok firstRes, log0) /\
    ((IsHTMLOrJSON firstRes (text firstRes) = doc_json /\
      headerLocation = url /\ log1 = log0 /\
      BrokenBMSJSONParse P (text firstRes) = inr headerJSON) \/
     (IsHTMLOrJSON firstRes (text firstRes) = doc_html /\
      exists bmstable headerRes,
        ReadMetaTag (text firstRes) = Some bmstable /\ bmstable <> [] /\
        URL_href P bmstable url = Some headerLocation /\
        FetchWithRetry P headerLocation default_retryCount log0
          = (Ok headerRes, log1) /\
        BrokenBMSJSONParse P (text headerRes) = inr headerJSON)).
Proof.
  unfold LoadBMSTable_header. intros H.
  apply bind_Ok in H as (firstRes & log0 & Hfirst & H). cbn zeta in H.
  exists firstRes, log0. split; [exact Hfirst|].
  destruct (IsHTMLOrJSON firstRes (text firstRes)).
  - right. split; [reflexivity|].
    destruct (ReadMetaTag (text firstRes)) as [[|c bmstable]|]; try discriminate.
    apply bind_Ok in H as (location & log2 & Hurl & H).
    unfold new_URL in Hurl.
    destruct (URL_href P (c :: bmstable) url) as [href|] eqn:Hhref;
      [|discriminate].
    injection Hurl as <- <-.
    apply bind_Ok in H as (headerRes & log3 & Hfetch & H).
    destruct (BrokenBMSJSONParse P (text headerRes)) eqn:Hparse;
      [discriminate|].
    injection H as <- <- <-.
    exists (c :: bmstable), headerRes. repeat split; try assumption.
    discriminate.
  - left. destruct (BrokenBMSJSONParse P (text firstRes)) eqn:Hparse;
      [discriminate|].
    injection H as <- <- <-. auto.
Qed.

Lemma LoadBMSTable_header_location_witness :
  exists firstRes log0,
    FetchWithRetry sample_platform table_url default_retryCount []
      = (Ok firstRes, log0) /\
    ((IsHTMLOrJSON firstRes (text firstRes) = doc_json /\
      head_url = table_url /\ [table_url; table_url; head_url] = log0 /\
      BrokenBMSJSONParse sample_platform (text firstRes)
        = inr (JObject sample_head)) \/
     (IsHTMLOrJSON firstRes (text firstRes) = doc_html /\
      exists bmstable headerRes,
        ReadMetaTag (text firstRes) = Some bmstable /\ bmstable <> [] /\
        URL_href sample_platform bmstable table_url = Some head_url /\
        FetchWithRetry sample_platform head_url default_retryCount log0
          = (Ok headerRes, [table_url; table_url; head_url]) /\
        BrokenBMSJSONParse sample_platform (text headerRes)
          = inr (JObject sample_head))).
Proof.
  apply (LoadBMSTable_header_location sample_platform table_url []).
  vm_compute. reflexivity.
Defined.

Lemma isHeader_data_url (headerJSON : gmap (list N) JSValue) :
  isHeader (JObject headerJSON) = true ->
  field headerJSON "data_url" = JString (data_url headerJSON).
Proof.
  cbn [isHeader]. rewrite !andb_true_iff. intros [[[_ H] _] _].
  unfold data_url. destruct (field headerJSON "data_url"); try discriminate.
  reflexivity.
Qed.

Lemma LoadBMSTable_after_header
    (P : Platform) (url : list N) (log log1 : list (list N))
    (headerLocation : list N) (headerJSON : gmap (list N) JSValue) :
  LoadBMSTable_header P url log
    = (Ok (headerLocation, JObject headerJSON), log1) ->
  isHeader (JObject headerJSON) = true ->
  LoadBMSTable P url log =
    bind (new_URL P (data_url headerJSON) headerLocation) (fun bodyLocation =>
    bind (FetchWithRetry P bodyLocation default_retryCount) (fun body =>
      match BrokenBMSJSONParse P (text body) with
      | inl err => throw (FailedReadBody err)
      | inr rawBodyJSON =>
          match ExtractBMSBody rawBodyJSON with
          | Throw e => throw e
          | Ok bodyJSON => ret (mkBMSTable headerJSON bodyJSON)
          end
      end)) log1.
Proof.
  intros Hheader Hshape. unfold LoadBMSTable.
  rewrite (bind_after _ _ _ _ _ Hheader). cbn [fst snd].
  apply HEAD_SCHEMA_ok in Hshape. now rewrite Hshape.
Qed.

(** X8: a document that [JSON.parse] refuses ends the load with an error
    that depends on where it was read.  The first response, when it is taken
    for JSON, is decoded outside any [try]: the error of [JSON.parse] itself
    comes out.  The header fetched through the pointer of an HTML page, and
    the body, are decoded inside a [try]: the error says that the header, or
    the body, could not be read, and carries the error of [JSON.parse]. *)
Theorem LoadBMSTable_decode_failures
    (P : Platform) (url : list N) (log : list (list N)) :
  (forall firstRes log0 err,
     FetchWithRetry P url default_retryCount log = (Ok firstRes, log0) ->
     IsHTMLOrJSON firstRes (text firstRes) = doc_json ->
     BrokenBMSJSONParse P (text firstRes) = inl err ->
     LoadBMSTable P url log = (Throw (SyntaxError err), log0)) /\
  (forall firstRes log0 c bmstable headerLocation headerRes log1 err,
     FetchWithRetry P url default_retryCount log = (Ok firstRes, log0) ->
     IsHTMLOrJSON firstRes (text firstRes) = doc_html ->
     ReadMetaTag (text firstRes) = Some (c :: bmstable) ->
     URL_href P (c :: bmstable) url = Some headerLocation ->
     FetchWithRetry P headerLocation default_retryCount log0
       = (Ok headerRes, log1) ->
     BrokenBMSJSONParse P (text headerRes) = inl err ->
     LoadBMSTable P url log = (Throw (FailedReadHeader err), log1)) /\
  (forall headerLocation headerJSON log1 bodyLocation bodyRes log2 err,
     LoadBMSTable_header P url log
       = (Ok (headerLocation, JObject headerJSON), log1) ->
     isHeader (JObject headerJSON) = true ->
     URL_href P (data_url headerJSON) headerLocation = Some bodyLocation ->
     FetchWithRetry P bodyLocation default_retryCount log1
       = (Ok bodyRes, log2) ->
     BrokenBMSJSONParse P (text bodyRes) = inl err ->
     LoadBMSTable P url log = (Throw (FailedReadBody err), log2)).
Proof.
  split; [|split].
  - intros firstRes log0 err Hfetch Htype Hparse.
    unfold LoadBMSTable. apply bind_throw. unfold LoadBMSTable_header.
    rewrite (bind_after _ _ _ _ _ Hfetch). cbn zeta.
    now rewrite Htype, Hparse.
  - intros firstRes log0 c bmstable headerLocation headerRes log1 err
      Hfetch Htype Htag Hurl Hheader Hparse.
    unfold LoadBMSTable. apply bind_throw. unfold LoadBMSTable_header.
    rewrite (bind_after _ _ _ _ _ Hfetch). cbn zeta.
    rewrite Htype, Htag.
    rewrite (bind_after _ _ _ headerLocation log0)
      by (unfold new_URL; now rewrite Hurl).
    rewrite (bind_after _ _ _ _ _ Hheader). now rewrite Hparse.
  - intros headerLocation headerJSON log1 bodyLocation bodyRes log2 err
      Hheader Hshape Hurl Hfetch Hparse.
    rewrite (LoadBMSTable_after_header _ _ _ _ _ _ Hheader Hshape).
    rewrite (bind_after _ _ _ bodyLocation log1)
      by (unfold new_URL; now rewrite Hurl).
    rewrite (bind_after _ _ _ _ _ Hfetch). now rewrite Hparse.
Qed.

Lemma LoadBMSTable_decode_failures_witness :
  LoadBMSTable (serving documents_bad_header sample_URL_href) other_head_url []
    = (Throw (SyntaxError (js "SyntaxError: Unexpected token")),
       [other_head_url]) /\
  LoadBMSTable (serving documents_bad_header sample_URL_href) table_url []
    = (Throw (FailedReadHeader (js "SyntaxError: Unexpected token")),
       [table_url; head_url]) /\
  LoadBMSTable (serving documents_bad_body sample_URL_href) table_url []
    = (Throw (FailedReadBody (js "SyntaxError: Unexpected token")),
       [table_url; head_url; body_url]).
Proof.
  split; [|split].
  - apply (LoadBMSTable_decode_failures
             (serving documents_bad_header sample_URL_href) other_head_url [])
      with (firstRes := json_response (js "{name:")); reflexivity.
  - destruct (LoadBMSTable_decode_failures
                (serving documents_bad_header sample_URL_href) table_url [])
      as (_ & Hheader & _).
    apply (Hheader (html_response wrapper_text) [table_url]
                   104%N (js "ead.json") head_url
                   (json_response (js "{name:")));
      reflexivity.
  - destruct (LoadBMSTable_decode_failures
                (serving documents_bad_body sample_URL_href) table_url [])
      as (_ & _ & Hbody).
    apply (Hbody head_url sample_head [table_url; head_url] body_url
                 (json_response (js "[")));
      reflexivity.
Defined.

(** X9: a reference that [URL] cannot resolve ends the load with the error
    of [new URL], before the request it was meant for: for the pointer of an
    HTML page no header is requested, and for the [data_url] of a valid
    header no body is requested. *)
Theorem LoadBMSTable_unresolvable_reference
    (P : Platform) (url : list N) (log : list (list N)) :
  (forall firstRes log0 c bmstable,
     FetchWithRetry P url default_retryCount log = (Ok firstRes, log0) ->
     IsHTMLOrJSON firstRes (text firstRes) = doc_html ->
     ReadMetaTag (text firstRes) = Some (c :: bmstable) ->
     URL_href P (c :: bmstable) url = None ->
     LoadBMSTable P url log = (Throw (InvalidURL (c :: bmstable) url), log0)) /\
  (forall headerLocation headerJSON log1,
     LoadBMSTable_header P url log
       = (Ok (headerLocation, JObject headerJSON), log1) ->
     isHeader (JObject headerJSON) = true ->
     URL_href P (data_url headerJSON) headerLocation = None ->
     field headerJSON "data_url" = JString (data_url headerJSON) /\
     LoadBMSTable P url log
       = (Throw (InvalidURL (data_url headerJSON) headerLocation), log1)).
Proof.
  split.
  - intros firstRes log0 c bmstable Hfetch Htype Htag Hurl.
    unfold LoadBMSTable. apply bind_throw. unfold LoadBMSTable_header.
    rewrite (bind_after _ _ _ _ _ Hfetch). cbn zeta.
    rewrite Htype, Htag. apply bind_throw. unfold new_URL. now rewrite Hurl.
  - intros headerLocation headerJSON log1 Hheader Hshape Hurl.
    split; [now apply isHeader_data_url|].
    rewrite (LoadBMSTable_after_header _ _ _ _ _ _ Hheader Hshape).
    apply bind_throw. unfold new_URL. now rewrite Hurl.
Qed.

Lemma LoadBMSTable_unresolvable_reference_witness :
  LoadBMSTable (serving documents_bad_body no_URL) table_url []
    = (Throw (InvalidURL (js "head.json") table_url), [table_url]) /\
  LoadBMSTable (serving documents_bad_body pointer_URL_only) table_url []
    = (Throw (InvalidURL (js "body.json") head_url), [table_url; head_url]).
Proof.
  split.
  - apply (LoadBMSTable_unresolvable_reference
             (serving documents_bad_body no_URL) table_url [])
      with (firstRes := html_response wrapper_text); reflexivity.
  - destruct (LoadBMSTable_unresolvable_reference
                (serving documents_bad_body pointer_URL_only) table_url [])
      as (_ & Hbody).
    apply (Hbody head_url sample_head [table_url; head_url]); reflexivity.
Defined.

(** ** The body normalizer (lines 191-247) *)

Lemma ExtractBMSBody_push_loop items : forall acc,
  fold_left ExtractBMSBody_push items acc
  = acc ++ fold_left ExtractBMSBody_push items [].
Proof.
  induction items as [|entry items IH]; intros acc; cbn [fold_left].
  - now rewrite app_nil_r.
  - rewrite IH, (IH (ExtractBMSBody_push [] entry)).
    unfold ExtractBMSBody_push.
    destruct (ExtractBMSBody_entry entry) as [[t rec]|]; cbn [app].
    + now rewrite <- app_assoc.
    + reflexivity.
Qed.

Lemma JObject_map_inj (xs ys : list (gmap (list N) JSValue)) :
  map JObject xs = map JObject ys -> xs = ys.
Proof.
  revert ys. induction xs as [|x xs IH]; intros [|y ys]; try discriminate.
  - reflexivity.
  - cbn. intros [= -> H]. f_equal. now apply IH.
Qed.

Lemma filter_usable_twice items :
  List.filter usable (List.filter usable items) = List.filter usable items.
Proof.
  induction items as [|entry items IH]; [reflexivity|]. cbn [List.filter].
  destruct (usable entry) eqn:E; [|exact IH].
  cbn [List.filter]. now rewrite E, IH.
Qed.

(** X10: the entries [ExtractBMSBody] returns keep the promise the entry
    types document: [level] is a number or a string, and whenever [md5] is
    not a string of 32 characters, [sha256] is a string of 64. *)
Theorem ExtractBMSBody_entries_have_a_checksum
    (rawData : JSValue) (entries : list (gmap (list N) JSValue)) :
  ExtractBMSBody rawData = Ok entries ->
  forall entry : gmap (list N) JSValue, entry ∈ entries ->
    isNumberOrString (field entry "level") = true /\
    (isStringOfLength 32 (field entry "md5") = false ->
     isStringOfLength 64 (field entry "sha256") = true).
Proof.
  intros H entry Hin. destruct rawData; try discriminate.
  apply (ExtractBMSBody_elem _ _ entry H) in Hin as [_ Husable].
  cbn [usable] in Husable. apply andb_true_iff in Husable as [Hlevel Hsum].
  split; [exact Hlevel|]. intros Hmd5. now rewrite Hmd5 in Hsum.
Qed.

Lemma ExtractBMSBody_entries_have_a_checksum_witness :
  isNumberOrString (field entry_sha256 "level") = true /\
  (isStringOfLength 32 (field entry_sha256 "md5") = false ->
   isStringOfLength 64 (field entry_sha256 "sha256") = true).
Proof.
  apply (ExtractBMSBody_entries_have_a_checksum
           (JArray sample_body) [entry_md5; entry_sha256; entry_md5]).
  - reflexivity.
  - right. left.
Defined.

(** X11: normalizing works element by element: the entries of two bodies
    put end to end are the entries of the first followed by the entries of
    the second, and there are never more entries than elements. *)
Theorem ExtractBMSBody_of_concatenation (items1 items2 : list JSValue) :
  exists entries1 entries2 : list (gmap (list N) JSValue),
    ExtractBMSBody (JArray items1) = Ok entries1 /\
    ExtractBMSBody (JArray items2) = Ok entries2 /\
    ExtractBMSBody (JArray (items1 ++ items2)) = Ok (entries1 ++ entries2) /\
    (length entries1 <= length items1)%nat.
Proof.
  exists (fold_left ExtractBMSBody_push items1 []),
         (fold_left ExtractBMSBody_push items2 []).
  repeat split.
  - cbn [ExtractBMSBody]. now rewrite fold_left_app, ExtractBMSBody_push_loop.
  - rewrite <- (length_map JObject), ExtractBMSBody_loop. cbn [map app].
    apply filter_length_le.
Qed.

(** X12: normalizing is idempotent: the entries [ExtractBMSBody] returns,
    given to it again as a body, all come back, in the same order. *)
Theorem ExtractBMSBody_idempotent
    (rawData : JSValue) (entries : list (gmap (list N) JSValue)) :
  ExtractBMSBody rawData = Ok entries ->
  ExtractBMSBody (JArray (map JObject entries)) = Ok entries.
Proof.
  intros H. destruct rawData; try discriminate.
  destruct (ExtractBMSBody_array items) as (entries' & H' & Hmap).
  rewrite H in H'. injection H' as <-.
  destruct (ExtractBMSBody_array (map JObject entries)) as (again & -> & Hagain).
  f_equal. apply JObject_map_inj.
  now rewrite Hagain, Hmap, filter_usable_twice.
Qed.

Lemma ExtractBMSBody_idempotent_witness :
  ExtractBMSBody (JArray (map JObject [entry_md5; entry_sha256; entry_md5]))
    = Ok [entry_md5; entry_sha256; entry_md5].
Proof.
  apply (ExtractBMSBody_idempotent (JArray sample_body)). reflexivity.
Defined.

Lemma z_array_items_ok (element : ZodType) (good : JSValue -> bool)
    (at_index : nat -> list PathItem) items :
  (forall path v, element path v = [] <-> good v = true) ->
  concat (imap (fun i item => element (at_index i) item) items) = []
  <-> forallb good items = true.
Proof.
  intros Helement. revert at_index.
  induction items as [|item items IH]; intros at_index.
  - simpl. tauto.
  - cbn [imap concat forallb].
    change (imap _ items) with
      (imap (fun i item => element (at_index (S i)) item) items).
    rewrite andb_true_iff, <- (IH (fun i => at_index (S i))),
      <- (Helement (at_index 0%nat) item).
    split.
    + intros H. apply app_eq_nil in H. exact H.
    + intros [-> ->]. reflexivity.
Qed.

Lemma BODY_SCHEMA_ok v :
  safeParse BODY_SCHEMA v = [] <->
  exists items, v = JArray items /\ forallb isOldEntry items = true.
Proof.
  unfold safeParse, BODY_SCHEMA, z_array.
  destruct v; try (split; [discriminate | intros (? & [=] & _)]).
  rewrite (z_array_items_ok _ isOldEntry).
  - split; [eauto | intros (? & [= <-] & H); exact H].
  - intros path v. unfold z_object.
    destruct v; cbn [isOldEntry]; try (split; discriminate).
    cbn [map concat fst snd]. rewrite app_nil_r, andb_true_iff.
    rewrite <- (z_string_ok (path ++ [p_key "md5"])),
      <- (z_string_ok (path ++ [p_key "level"])).
    split.
    + intros H. apply app_eq_nil in H. exact H.
    + intros [-> ->]. reflexivity.
Qed.

(** X13: the normalizer is compatible with the schema it replaced: a body
    that the earlier [BODY_SCHEMA] accepts (an array of objects with a string
    [md5] and a string [level]) and whose [md5] values all have 32 characters
    is returned whole, every element an entry, in the same order. *)
Theorem ExtractBMSBody_keeps_what_BODY_SCHEMA_accepted (items : list JSValue) :
  safeParse BODY_SCHEMA (JArray items) = [] ->
  Forall (fun entry => exists rec, entry = JObject rec /\
            isStringOfLength 32 (field rec "md5") = true) items ->
  exists entries,
    ExtractBMSBody (JArray items) = Ok entries /\
    map JObject entries = items.
Proof.
  intros Hschema Hmd5.
  apply BODY_SCHEMA_ok in Hschema as (items' & [= <-] & Hold).
  destruct (ExtractBMSBody_array items) as (entries & -> & Hmap).
  exists entries. split; [reflexivity|]. rewrite Hmap.
  clear Hmap. induction Hmd5 as [|entry items (rec & -> & H32) _ IH];
    [reflexivity|].
  cbn [forallb] in Hold. apply andb_true_iff in Hold as [Hentry Hold].
  cbn [isOldEntry] in Hentry. apply andb_true_iff in Hentry as [_ Hlevel].
  cbn [List.filter usable]. rewrite H32.
  destruct (field rec "level"); try discriminate; cbn; now rewrite IH.
Qed.

Lemma ExtractBMSBody_keeps_what_BODY_SCHEMA_accepted_witness :
  exists entries,
    ExtractBMSBody (JArray [JObject entry_md5; JObject entry_both]) = Ok entries /\
    map JObject entries = [JObject entry_md5; JObject entry_both].
Proof.
  apply ExtractBMSBody_keeps_what_BODY_SCHEMA_accepted.
  - reflexivity.
  - repeat (constructor; [eexists; split; reflexivity|]). constructor.
Defined.

(** X14: once the header is decoded and valid, its [data_url] resolved and
    the body fetched and decoded, the body alone decides the outcome: an array
    gives the table, made of that header and of the usable elements of the
    array; any other value gives the error about an invalid body, which
    carries the value and its [typeof], unless the value has no string form
    (an object with a [toString] field of its own), in which case the
    TypeError raised while the message is built comes out.  None of these
    makes a further request. *)
Theorem LoadBMSTable_body_stage
    (P : Platform) (url : list N) (log log1 log2 : list (list N))
    (headerLocation bodyLocation : list N)
    (headerJSON : gmap (list N) JSValue) (bodyRes : Response)
    (rawBodyJSON : JSValue) :
  LoadBMSTable_header P url log
    = (Ok (headerLocation, JObject headerJSON), log1) ->
  isHeader (JObject headerJSON) = true ->
  URL_href P (data_url headerJSON) headerLocation = Some bodyLocation ->
  FetchWithRetry P bodyLocation default_retryCount log1 = (Ok bodyRes, log2) ->
  BrokenBMSJSONParse P (text bodyRes) = inr rawBodyJSON ->
  (forall items, rawBodyJSON = JArray items ->
     exists entries,
       LoadBMSTable P url log = (Ok (mkBMSTable headerJSON entries), log2) /\
       map JObject entries = List.filter usable items) /\
  (Array_isArray rawBodyJSON = false ->
   ToString_throws rawBodyJSON = false ->
     LoadBMSTable P url log
       = (Throw (InvalidBody (typeof rawBodyJSON) rawBodyJSON), log2)) /\
  (Array_isArray rawBodyJSON = false ->
   ToString_throws rawBodyJSON = true ->
     LoadBMSTable P url log
       = (Throw (CannotConvertToPrimitive rawBodyJSON), log2)).
Proof.
  intros Hheader Hshape Hurl Hfetch Hparse.
  rewrite (LoadBMSTable_after_header _ _ _ _ _ _ Hheader Hshape).
  rewrite (bind_after _ _ _ bodyLocation log1)
    by (unfold new_URL; now rewrite Hurl).
  rewrite (bind_after _ _ _ _ _ Hfetch), Hparse. split; [|split].
  - intros items ->.
    destruct (ExtractBMSBody_array items) as (entries & -> & Hmap).
    exists entries. split; [reflexivity | exact Hmap].
  - intros Hnot Hstring.
    destruct rawBodyJSON; try discriminate;
      cbn [ExtractBMSBody]; rewrite Hstring; reflexivity.
  - intros Hnot Hstring.
    destruct rawBodyJSON; try discriminate;
      cbn [ExtractBMSBody]; rewrite Hstring; reflexivity.
Qed.

Lemma LoadBMSTable_body_stage_witness :
  LoadBMSTable (serving documents_object_body sample_URL_href) table_url []
    = (Throw (InvalidBody t_object (JObject head_dataLocation)),
       [table_url; head_url; body_url]).
Proof.
  destruct (LoadBMSTable_body_stage
              (serving documents_object_body sample_URL_href) table_url []
              [table_url; head_url] [table_url; head_url; body_url]
              head_url body_url sample_head (json_response other_head_text)
              (JObject head_dataLocation))
    as (_ & Hnot & _); [reflexivity..|].
  apply Hnot; reflexivity.
Defined.

(** ** The level order (lines 80-103) *)

Lemma distinctFirstSeen_In vs v : In v (distinctFirstSeen vs) -> In v vs.
Proof.
  induction vs as [|u vs IH]; [trivial|]. cbn [distinctFirstSeen].
  intros [-> | H]; [now left|]. right. apply IH.
  now apply filter_In in H as [H _].
Qed.

Lemma isOptionalLevels_array v :
  isOptionalLevels v = true -> ToBoolean v = true ->
  exists levels, v = JArray levels /\
                 Forall (fun l => isNumberOrString l = true) levels.
Proof.
  destruct v; try discriminate. intros H _. exists items. split; [reflexivity|].
  apply List.Forall_forall. intros l Hl. cbn in H.
  rewrite forallb_forall in H. specialize (H l Hl).
  destruct l; try discriminate; reflexivity.
Qed.

(** X15: for every table a load returns, [getLevelOrder] returns an array,
    and every element of it is a number or a string, whether the order was
    declared in the head or read off the body. *)
Theorem LoadBMSTable_level_order_is_an_array_of_levels
    (P : Platform) (url : list N) (log log' : list (list N)) (t : BMSTable) :
  LoadBMSTable P url log = (Ok t, log') ->
  exists levels,
    getLevelOrder t = JArray levels /\
    Forall (fun l => isNumberOrString l = true) levels.
Proof.
  intros H.
  destruct (LoadBMSTable_Ok _ _ _ _ _ H)
    as (headerLocation & log1 & bodyLocation & bodyRes & items &
        _ & Hshape & _ & _ & _ & Hmap).
  cbn [isHeader] in Hshape. rewrite !andb_true_iff in Hshape.
  destruct Hshape as [[_ Hlevels] Horder].
  unfold getLevelOrder.
  destruct (ToBoolean (field (head t) "levels")) eqn:E1;
    [now apply isOptionalLevels_array|].
  destruct (ToBoolean (field (head t) "level_order")) eqn:E2;
    [now apply isOptionalLevels_array|].
  exists (fold_left sniffLevel (body t) []). split; [reflexivity|].
  rewrite sniffLevel_distinctFirstSeen. apply List.Forall_forall.
  intros l Hl. apply distinctFirstSeen_In, in_map_iff in Hl as (chart & <- & Hin).
  assert (In (JObject chart) (List.filter usable items)) as Husable
    by (rewrite <- Hmap; now apply in_map).
  apply filter_In in Husable as [_ Husable]. cbn [usable] in Husable.
  now apply andb_true_iff in Husable as [? _].
Qed.

Lemma LoadBMSTable_level_order_is_an_array_of_levels_witness :
  exists levels,
    getLevelOrder sample_table = JArray levels /\
    Forall (fun l => isNumberOrString l = true) levels.
Proof.
  apply (LoadBMSTable_level_order_is_an_array_of_levels
           sample_platform table_url []
           [table_url; table_url; head_url; body_url]).
  vm_compute. reflexivity.
Defined.

(** X16: when the head declares no order ([levels] and [level_order] are
    absent, or falsy), charts added at the end of the body never move the
    levels already found: the order of the longer body starts with the order
    of the shorter one, followed by levels the shorter one did not have. *)
Theorem getLevelOrder_grows_at_the_end
    (h : gmap (list N) JSValue) (charts more : list (gmap (list N) JSValue)) :
  ToBoolean (field h "levels") = false ->
  ToBoolean (field h "level_order") = false ->
  exists levels added,
    getLevelOrder (mkBMSTable h charts) = JArray levels /\
    getLevelOrder (mkBMSTable h (charts ++ more)) = JArray (levels ++ added) /\
    Forall (fun l => Array_includes levels l = false) added.
Proof.
  intros H1 H2. unfold getLevelOrder. cbn [head body]. rewrite H1, H2.
  exists (fold_left sniffLevel charts []). eexists.
  split; [reflexivity|]. rewrite fold_left_app, sniffLevel_loop.
  split; [reflexivity|].
  apply List.Forall_forall. intros l Hl. apply filter_In in Hl as [_ Hl].
  now apply negb_true_iff in Hl.
Qed.

Lemma getLevelOrder_grows_at_the_end_witness :
  exists levels added,
    getLevelOrder (mkBMSTable sample_head [entry_md5]) = JArray levels /\
    getLevelOrder (mkBMSTable sample_head ([entry_md5] ++ [entry_sha256; entry_md5]))
      = JArray (levels ++ added) /\
    Forall (fun l => Array_includes levels l = false) added.
Proof.
  apply getLevelOrder_grows_at_the_end; reflexivity.
Defined.

(** ** The pointer extractor (lines 286-294) *)

Lemma pointerAt_includes input v :
  pointerAt input v ->
  forallb notQuote v = true /\ forallb dot v = true /\
  includes input marker = true /\
  includes input (openValue ++ v ++ dquote) = true.
Proof.
  intros (ws & mid & rest & -> & _ & _ & _ & _ & Hdot & Hnq).
  repeat split; try assumption; apply includes_spec.
  - exists (js "<meta" ++ ws), (mid ++ openValue ++ v ++ dquote ++ rest).
    now rewrite <- !app_assoc.
  - exists (js "<meta" ++ ws ++ marker ++ mid), rest.
    now rewrite <- !app_assoc.
Qed.

Lemma includes_suffix before here needle :
  includes here needle = true -> includes (before ++ here) needle = true.
Proof.
  rewrite !includes_spec. intros (a & b & ->).
  exists (before ++ a), b. now rewrite <- app_assoc.
Qed.

(** X17: a pointer [ReadMetaTag] returns holds no quote and no line
    terminator, and the page contains the marker and, somewhere, the pointer
    between an equals sign with a quote and a closing quote; a page that does
    not contain the marker as it is written (lower case, double quotes) has
    no pointer. *)
Theorem ReadMetaTag_pointer_is_quoted_in_the_page (page : list N) :
  (forall v, ReadMetaTag page = Some v ->
     forallb notQuote v = true /\ forallb dot v = true /\
     includes page marker = true /\
     includes page (openValue ++ v ++ dquote) = true) /\
  (includes page marker = false -> ReadMetaTag page = None).
Proof.
  assert (forall v, ReadMetaTag page = Some v ->
            forallb notQuote v = true /\ forallb dot v = true /\
            includes page marker = true /\
            includes page (openValue ++ v ++ dquote) = true) as Hsome.
  { intros v H. apply ReadMetaTag_exec, exec_Some in H
      as (before & here & -> & Hm & _).
    apply match_nodes_bmstable in Hm as (v' & [= <-] & Hv).
    destruct (pointerAt_includes _ _ Hv) as (Hq & Hd & Hmarker & Hvalue).
    repeat split; try assumption; now apply includes_suffix. }
  split; [exact Hsome|].
  intros Hnone. destruct (ReadMetaTag page) as [v|] eqn:E; [|reflexivity].
  destruct (Hsome v eq_refl) as (_ & _ & Hmarker & _). congruence.
Qed.

Lemma ReadMetaTag_pointer_is_quoted_in_the_page_witness :
  includes wrapper_text (openValue ++ js "head.json" ++ dquote) = true /\
  ReadMetaTag capitals_text = None.
Proof.
  split.
  - apply (ReadMetaTag_pointer_is_quoted_in_the_page wrapper_text).
    reflexivity.
  - apply (ReadMetaTag_pointer_is_quoted_in_the_page capitals_text).
    reflexivity.
Defined.

Lemma match_nodes_bmstable_not_here c rest :
  notLessThan c = true -> match_nodes bmstable_regex None (c :: rest) = None.
Proof.
  intros Hc.
  destruct (match_nodes bmstable_regex None (c :: rest)) as [r|] eqn:E;
    [|reflexivity].
  apply match_nodes_bmstable in E as (v & _ & ws & mid & rest' & E & _).
  injection E as -> _. discriminate.
Qed.

(** X18: text without a [<] in front of a page changes nothing: the pointer
    found in the longer text is the pointer found in the page. *)
Theorem ReadMetaTag_skips_text_without_a_tag (before page : list N) :
  forallb notLessThan before = true ->
  ReadMetaTag (before ++ page) = ReadMetaTag page.
Proof.
  intros H. unfold ReadMetaTag. f_equal.
  induction before as [|c before IH]; [reflexivity|].
  cbn [forallb] in H. apply andb_true_iff in H as [Hc H].
  cbn [app exec]. rewrite (match_nodes_bmstable_not_here _ _ Hc). now apply IH.
Qed.

Lemma ReadMetaTag_skips_text_without_a_tag_witness :
  ReadMetaTag (js "Difficulty table, 2022. " ++ wrapper_text)
    = Some (js "head.json").
Proof.
  rewrite (ReadMetaTag_skips_text_without_a_tag (js "Difficulty table, 2022. "));
    reflexivity.
Defined.

(** ** Fields the checks do not read *)

Lemma field_insert_other (o : gmap (list N) JSValue) (k : list N) (v : JSValue)
    (key : string) :
  k <> js key -> field (<[k := v]> o) key = field o key.
Proof. intros Hne. unfold field. now rewrite lookup_insert_ne. Qed.

(** X19: the header schema reads five fields and no other: setting any
    other field of a header, to any value, leaves the issues it reports
    unchanged, so a header stays valid, or invalid for the same reasons. *)
Theorem HEAD_SCHEMA_ignores_other_fields
    (o : gmap (list N) JSValue) (k : list N) (v : JSValue) :
  k <> js "name" -> k <> js "symbol" -> k <> js "data_url" ->
  k <> js "levels" -> k <> js "level_order" ->
  safeParse HEAD_SCHEMA (JObject (<[k := v]> o))
    = safeParse HEAD_SCHEMA (JObject o).
Proof.
  intros H1 H2 H3 H4 H5. unfold safeParse, HEAD_SCHEMA, z_object.
  cbn [map fst snd]. now rewrite !field_insert_other.
Qed.

Lemma HEAD_SCHEMA_ignores_other_fields_witness :
  safeParse HEAD_SCHEMA (JObject (<[js "author" := JNull]> sample_head)) = [].
Proof.
  rewrite HEAD_SCHEMA_ignores_other_fields; [reflexivity | discriminate..].
Defined.

(** X20: the normalizer reads [level], [md5] and [sha256] and no other
    field: setting any other field of an element, to any value, does not
    change whether the element is kept nor the arm that accepts it, and the
    entry kept is the element with that field set. *)
Theorem ExtractBMSBody_entry_ignores_other_fields
    (rec : gmap (list N) JSValue) (k : list N) (v : JSValue) :
  k <> js "level" -> k <> js "md5" -> k <> js "sha256" ->
  ExtractBMSBody_entry (JObject (<[k := v]> rec))
    = match ExtractBMSBody_entry (JObject rec) with
      | Some (type, _) => Some (type, <[k := v]> rec)
      | None => None
      end.
Proof.
  intros H1 H2 H3. rewrite !ExtractBMSBody_entry_object.
  rewrite !field_insert_other by assumption.
  destruct (isNumberOrString (field rec "level")); [|reflexivity].
  destruct (isStringOfLength 32 (field rec "md5")); [reflexivity|].
  destruct (isStringOfLength 64 (field rec "sha256")); reflexivity.
Qed.

Lemma ExtractBMSBody_entry_ignores_other_fields_witness :
  ExtractBMSBody_entry (JObject (<[js "title" := JNumber (num 7)]> entry_sha256))
    = Some (sha256, <[js "title" := JNumber (num 7)]> entry_sha256).
Proof.
  rewrite ExtractBMSBody_entry_ignores_other_fields;
    [reflexivity | discriminate..].
Defined.
